(** * Excel data extraction tool: model of [scripts/extract_excel_gui.py]

    A shallow embedding of the extraction engine of the tool (cell and
    range addressing, spec parsing, the per-worksheet extraction loop and
    the two output modes) together with the properties stated for it.

    Python values are modelled as follows.
    - A [str] is the list of its Unicode code points.
    - An [int] is a [Z].
    - A [dict] is an association list in insertion order with unique keys.
    - A raised exception is the left injection of a sum type.
    - Lines written with [print] or [self.log] are events appended to a
      chronological list. *)

From Stdlib Require Import Ascii String.
From Stdlib Require Import List ZArith NArith Bool Lia.
Import ListNotations.

Set Implicit Arguments.

(* ================================================================= *)
(** ** Python strings *)

Module Py.

(** A character is a Unicode code point. *)
Definition char : Type := N.
Definition str : Type := list char.

Definition char_eqb (a b : char) : bool := N.eqb a b.

Fixpoint str_eqb (a b : str) : bool :=
  match a, b with
  | [], [] => true
  | x :: a', y :: b' => char_eqb x y && str_eqb a' b'
  | _, _ => false
  end.

(** Decoder for UTF-8 byte sequences, used only to write [str] literals
    readably: [utf8 "F4"] is the two code points 70 and 52. *)
Fixpoint utf8_decode (bs : list N) : str :=
  match bs with
  | [] => []
  | b0 :: r0 =>
      if (b0 <? 128)%N then b0 :: utf8_decode r0
      else if (b0 <? 224)%N then
        match r0 with
        | b1 :: r1 => ((b0 - 192) * 64 + (b1 - 128))%N :: utf8_decode r1
        | [] => []
        end
      else if (b0 <? 240)%N then
        match r0 with
        | b1 :: b2 :: r2 =>
            ((b0 - 224) * 4096 + (b1 - 128) * 64 + (b2 - 128))%N
              :: utf8_decode r2
        | _ => []
        end
      else
        match r0 with
        | b1 :: b2 :: b3 :: r3 =>
            ((b0 - 240) * 262144 + (b1 - 128) * 4096
             + (b2 - 128) * 64 + (b3 - 128))%N :: utf8_decode r3
        | _ => []
        end
  end.

Definition utf8 (s : string) : str :=
  utf8_decode (map N_of_ascii (list_ascii_of_string s)).

(** The code points the program names. *)
Definition dash : char := 45%N.
Definition colon : char := 58%N.

(** [c in s] for a one-character [c]. *)
Definition contains (c : char) (s : str) : bool := existsb (char_eqb c) s.

(** [s.split(sep)] for a one-character separator: every occurrence
    splits, so the result has one more part than there are separators. *)
Fixpoint split (sep : char) (s : str) : list str :=
  match s with
  | [] => [[]]
  | c :: r =>
      if char_eqb c sep then [] :: split sep r
      else match split sep r with
           | p :: ps => (c :: p) :: ps
           | [] => [[c]]
           end
  end.

(** [sep.join(parts)]. *)
Fixpoint join (sep : char) (parts : list str) : str :=
  match parts with
  | [] => []
  | p :: ps =>
      match ps with
      | [] => p
      | _ :: _ => p ++ sep :: join sep ps
      end
  end.

(** What the interpreter and the libraries decide outside the program's
    text: the part of the Unicode character database the program
    consults, and the interpreter's limit on decimal literals.  On ASCII
    code points the classification below is fixed; beyond ASCII it is
    whatever the tables say, and every result holds for all tables. *)
Record Runtime : Type := {
  (** [c.isdigit()] for a non-ASCII code point *)
  uni_isdigit : char -> bool;
  (** [c.isalpha()] for a non-ASCII code point *)
  uni_isalpha : char -> bool;
  (** the value [int] gives a non-ASCII decimal digit, if it accepts it *)
  uni_decimal : char -> option Z;
  (** openpyxl's [column_index_from_string] on a name with a non-ASCII
      code point, [None] when it raises [ValueError] *)
  uni_column : str -> option Z;
  (** [sys.get_int_max_str_digits()]: 0 when [int] has no limit *)
  int_max_str_digits : nat
}.

(** Tables that know no character beyond ASCII, with CPython's default
    limit on decimal literals. *)
Definition ascii_only : Runtime :=
  {| uni_isdigit := fun _ => false;
     uni_isalpha := fun _ => false;
     uni_decimal := fun _ => None;
     uni_column := fun _ => None;
     int_max_str_digits := 4300 |}.

Definition is_ascii (c : char) : bool := (c <? 128)%N.
Definition ascii_digit (c : char) : bool := ((48 <=? c) && (c <=? 57))%N.
Definition ascii_upper (c : char) : bool := ((65 <=? c) && (c <=? 90))%N.
Definition ascii_lower (c : char) : bool := ((97 <=? c) && (c <=? 122))%N.
Definition ascii_alpha (c : char) : bool := ascii_upper c || ascii_lower c.

Section Classes.
Variable U : Runtime.

(** [c.isdigit()] and [c.isalpha()] for one character. *)
Definition char_isdigit (c : char) : bool :=
  if is_ascii c then ascii_digit c else uni_isdigit U c.

Definition char_isalpha (c : char) : bool :=
  if is_ascii c then ascii_alpha c else uni_isalpha U c.

(** [s.isdigit()]: non-empty and every character is a digit. *)
Definition isdigit (s : str) : bool :=
  match s with
  | [] => false
  | _ :: _ => forallb char_isdigit s
  end.
End Classes.

End Py.

Import Py.

(* ================================================================= *)
(** ** Spec parsing: [parse_position_args] *)

Section SpecParser.
Variable U : Runtime.

(** The test of line 96: the left part has a digit and a letter. *)
Definition looks_like_cell (left_part : str) : bool :=
  existsb (char_isdigit U) left_part && existsb (char_isalpha U) left_part.

(** The loop [for i in range(len(parts)-1, 0, -1)] of lines 91-101,
    entered at index [i]; [None] is the loop's [else] branch. *)
Fixpoint scan_splits (parts : list str) (i : nat) : option (str * str) :=
  match i with
  | O => None
  | S i' =>
      let left_part := join dash (firstn i parts) in
      let right_part := join dash (skipn i parts) in
      if looks_like_cell left_part then Some (left_part, right_part)
      else scan_splits parts i'
  end.

(** The body of the loop over [position_args] (lines 85-104). *)
Definition parse_position_arg (arg : str) : str * str :=
  if contains dash arg then
    let parts := split dash arg in
    match scan_splits parts (length parts - 1) with
    | Some found => found
    | None => (arg, arg)
    end
  else (arg, arg).

Definition parse_position_args (position_args : list str) : list (str * str) :=
  fold_left (fun parsed_positions arg =>
               parsed_positions ++ [parse_position_arg arg])
            position_args [].
End SpecParser.

(* ================================================================= *)
(** ** Values, worksheets, exceptions and the effect trace *)

(** A cell of a worksheet as pandas hands it over.  The program never
    inspects a cell, it only carries it. *)
Inductive Scalar : Type :=
| Number (n : Z)
| Text (s : str)
| Date (stamp : Z)
| NaN.

(** The values the program stores in a record: [None] (the missing
    marker), a name, a cell, or the list a range resolves to, whose
    elements are cells and [None]s. *)
Inductive PyVal : Type :=
| PNone
| PStr (s : str)
| PCell (x : Scalar)
| PList (xs : list (option Scalar)).

(** A [DataFrame] read with [header=None]: [df.shape] and the cell at
    each 0-based position inside the shape. *)
Record DataFrame : Type := {
  nrows : nat;
  ncols : nat;
  cell : nat -> nat -> Scalar
}.

(** The frame holding the given rows, short rows filled with [NaN]. *)
Definition frame_of_rows (width : nat) (rows : list (list Scalar)) : DataFrame :=
  {| nrows := length rows;
     ncols := width;
     cell := fun r c => nth c (nth r rows []) NaN |}.

(** Exceptions.  The first three are the [ValueError]s the coordinate
    scan raises itself (lines 26, 47, 56): the spec's InvalidCoordinate. *)
Inductive Exn : Type :=
| InvalidCellFormat (cell_range : str)
| InvalidStartCell (start_cell : str)
| InvalidEndCell (end_cell : str)
| InvalidLiteral (digits : str)         (* ValueError of [int] *)
| InvalidColumnName (col_str : str)     (* ValueError of openpyxl *)
| UnpackError (parts : nat)             (* ValueError of the 2-tuple unpacking *)
| IndexError                            (* [df.iloc] out of bounds *)
| ReadError (code : N)                  (* whatever pandas raises on a file or sheet *)
| NoEngine (extension : str)            (* ValueError of [to_excel] *)
| OpenFailed (cause : Exn)              (* Exception of line 121 *)
| NoDataExtracted.                      (* Exception of lines 157 and 404 *)

Definition is_invalid_coordinate (e : Exn) : bool :=
  match e with
  | InvalidCellFormat _ | InvalidStartCell _ | InvalidEndCell _ => true
  | _ => false
  end.

(** The table handed to [to_excel]: the header and one row per record. *)
Record Table : Type := {
  header : list str;
  body : list (list PyVal)
}.

(** What the program does to the outside, in the order it does it:
    lines it prints, lines it sends to [self.log], files it writes. *)
Inductive Event : Type :=
| WarnRow (cell_range : str) (row num_rows : Z)                    (* line 30 *)
| WarnColumn (cell_range col_str : str) (col num_cols : Z)         (* line 33 *)
| WarnRangeRows (cell_range : str) (num_rows : Z)                  (* line 62 *)
| WarnRangeColumns (cell_range : str) (num_cols : Z)               (* line 66 *)
| PrintSheetFailed (sheet_name : str) (e : Exn)                    (* line 127 *)
| PrintExtractError (cell_range sheet_name : str) (e : Exn)        (* line 138 *)
| LogProcessing (file_name : str)                                  (* lines 363, 412 *)
| LogSheetFailed (sheet_name : str) (e : Exn)                      (* line 375 *)
| LogExtractFailed (cell_range : str) (e : Exn)                    (* line 385 *)
| LogSheetDone (sheet_name : str)                                  (* line 389 *)
| LogFileError (file_name : str) (e : Exn)                         (* line 392 *)
| LogSaved (output_path : str)                                     (* line 401 *)
| LogTotal (count : Z)                                             (* line 402 *)
| LogCount (count : Z) (output_file : str)                         (* line 420 *)
| LogError (e : Exn)                                               (* line 422 *)
| Wrote (output_path : str) (table : Table).                       (* [to_excel] *)

Definition is_warning (ev : Event) : bool :=
  match ev with
  | WarnRow _ _ _ | WarnColumn _ _ _ _
  | WarnRangeRows _ _ | WarnRangeColumns _ _ => true
  | _ => false
  end.

(** A computation: the events it caused, and its result or the
    exception that ended it. *)
Definition Run (A : Type) : Type := list Event * (Exn + A).

Definition ret {A} (a : A) : Run A := ([], inr a).
Definition raise {A} (e : Exn) : Run A := ([], inl e).
Definition emit (ev : Event) : Run unit := ([ev], inr tt).

Definition bind {A B} (m : Run A) (k : A -> Run B) : Run B :=
  match m with
  | (out, inl e) => (out, inl e)
  | (out, inr a) => let (out', r) := k a in (out ++ out', r)
  end.

(** [try: body except Exception as e: handler(e)]. *)
Definition try_except {A} (body : Run A) (handler : Exn -> Run A) : Run A :=
  match body with
  | (out, inl e) => let (out', r) := handler e in (out ++ out', r)
  | (out, inr a) => (out, inr a)
  end.

Definition lift {A} (r : Exn + A) : Run A := ([], r).

Declare Scope run_scope.
Delimit Scope run_scope with run.
Notation "x <- m ;; k" := (bind m (fun x => k))
  (at level 61, m at next level, right associativity) : run_scope.
Notation "m ;;; k" := (bind m (fun _ => k))
  (at level 61, right associativity) : run_scope.
Open Scope run_scope.

Definition events {A} (m : Run A) : list Event := fst m.
Definition outcome {A} (m : Run A) : Exn + A := snd m.

(** [for x in xs: state = body(x, state)]. *)
Fixpoint for_in {A S} (xs : list A) (body : A -> S -> Run S) (s : S) : Run S :=
  match xs with
  | [] => ret s
  | x :: xs' => s' <- body x s ;; for_in xs' body s'
  end.

(** [range(a, b)]. *)
Definition py_range (a b : Z) : list Z :=
  map (fun k => (a + Z.of_nat k)%Z) (seq 0 (Z.to_nat (b - a))).

(* ================================================================= *)
(** ** Coordinates: the scan for the digit suffix, [int], and
       openpyxl's [column_index_from_string] *)

Section Coordinates.
Variable U : Runtime.

(** The first [i] among [indices] for which [token[i:].isdigit()]. *)
Fixpoint first_digit_suffix (token : str) (indices : list nat) : option nat :=
  match indices with
  | [] => None
  | i :: rest =>
      if isdigit U (skipn i token) then Some i
      else first_digit_suffix token rest
  end.

Definition digit_value (c : char) : option Z :=
  if is_ascii c then
    if ascii_digit c then Some (Z.of_N (c - 48)) else None
  else uni_decimal U c.

Fixpoint int_from (acc : Z) (digits : str) : option Z :=
  match digits with
  | [] => Some acc
  | c :: rest =>
      match digit_value c with
      | Some d => int_from (10 * acc + d)%Z rest
      | None => None
      end
  end.

(** The interpreter refuses a decimal literal of more than 640 digits
    that exceeds its limit, when it has one. *)
Definition int_accepts (digits : str) : bool :=
  negb ((640 <? length digits)
        && (0 <? int_max_str_digits U)
        && (int_max_str_digits U <? length digits)).

(** [int(digits)] for a string without sign, blanks or underscores. *)
Definition int (digits : str) : Exn + Z :=
  match digits with
  | [] => inl (InvalidLiteral digits)
  | _ :: _ =>
      if int_accepts digits then
        match int_from 0%Z digits with
        | Some n => inr n
        | None => inl (InvalidLiteral digits)
        end
      else inl (InvalidLiteral digits)
  end.

(** The [for ... else] scans of lines 20-26, 41-47 and 50-56:
    [for i in range(1, len(token))], stopping at the first digit
    suffix, and raising [failure] when none is found. *)
Definition scan_cell (failure : Exn) (token : str) : Run (str * Z) :=
  match first_digit_suffix token (seq 1 (length token - 1)) with
  | Some i =>
      let col_str := firstn i token in
      row <- lift (int (skipn i token)) ;;
      ret (col_str, row)
  | None => raise failure
  end.

Definition letter_value (c : char) : option Z :=
  if ascii_upper c then Some (Z.of_N (c - 64))
  else if ascii_lower c then Some (Z.of_N (c - 96))
  else None.

Fixpoint column_from (acc : Z) (letters : str) : option Z :=
  match letters with
  | [] => Some acc
  | c :: rest =>
      match letter_value c with
      | Some v => column_from (26 * acc + v)%Z rest
      | None => None
      end
  end.

(** openpyxl's [column_index_from_string]: one to three letters of
    either case, read in base 26 with A = 1; [ValueError] otherwise. *)
Definition column_index_from_string (col_str : str) : Exn + Z :=
  if forallb is_ascii col_str then
    if (1 <=? length col_str) && (length col_str <=? 3) then
      match column_from 0%Z col_str with
      | Some idx => inr idx
      | None => inl (InvalidColumnName col_str)
      end
    else inl (InvalidColumnName col_str)
  else
    match uni_column U col_str with
    | Some idx => inr idx
    | None => inl (InvalidColumnName col_str)
    end.
End Coordinates.

(* ================================================================= *)
(** ** Range resolution: [get_range_data_from_pandas] *)

(** Positional indexing as pandas does it: an index in [-n, n) counts
    from the end when negative, anything else is an [IndexError]. *)
Definition position (i n : Z) : option nat :=
  if ((0 <=? i) && (i <? n))%Z then Some (Z.to_nat i)
  else if ((- n <=? i) && (i <? 0))%Z then Some (Z.to_nat (i + n))
  else None.

(** [df.iloc[row_idx, col_idx]]. *)
Definition iloc (df : DataFrame) (row_idx col_idx : Z) : Exn + Scalar :=
  match position row_idx (Z.of_nat (nrows df)),
        position col_idx (Z.of_nat (ncols df)) with
  | Some r, Some c => inr (cell df r c)
  | _, _ => inl IndexError
  end.

Section Resolver.
Variable U : Runtime.

(** Lines 68-75: the two nested loops filling [values]. *)
Definition collect_range (df : DataFrame)
           (start_row end_row start_col_idx end_col_idx : Z)
  : Run (list (option Scalar)) :=
  let num_rows := Z.of_nat (nrows df) in
  let num_cols := Z.of_nat (ncols df) in
  for_in (py_range (start_row - 1) (Z.min end_row num_rows))
    (fun row_idx values =>
       values <- for_in (py_range start_col_idx (Z.min (end_col_idx + 1) num_cols))
                   (fun col_idx values =>
                      v <- lift (iloc df row_idx col_idx) ;;
                      ret (values ++ [Some v]))
                   values ;;
       if (end_col_idx >=? num_cols)%Z
       then ret (values ++ repeat None (Z.to_nat (end_col_idx + 1 - num_cols)))
       else ret values)
    [].

Definition get_range_data_from_pandas (df : DataFrame) (cell_range : str) : Run PyVal :=
  let num_rows := Z.of_nat (nrows df) in
  let num_cols := Z.of_nat (ncols df) in
  if negb (contains colon cell_range) then
    cr <- scan_cell U (InvalidCellFormat cell_range) cell_range ;;
    let (col_str, row) := cr in
    col <- lift (column_index_from_string U col_str) ;;
    let col_idx := (col - 1)%Z in
    if (row >? num_rows)%Z then
      emit (WarnRow cell_range row num_rows) ;;; ret PNone
    else if (col_idx >=? num_cols)%Z then
      emit (WarnColumn cell_range col_str (col_idx + 1) num_cols) ;;; ret PNone
    else v <- lift (iloc df (row - 1) col_idx) ;; ret (PCell v)
  else
    match split colon cell_range with
    | [start_cell; end_cell] =>
        s <- scan_cell U (InvalidStartCell start_cell) start_cell ;;
        let (start_col_str, start_row) := s in
        e <- scan_cell U (InvalidEndCell end_cell) end_cell ;;
        let (end_col_str, end_row) := e in
        start_col <- lift (column_index_from_string U start_col_str) ;;
        end_col <- lift (column_index_from_string U end_col_str) ;;
        let start_col_idx := (start_col - 1)%Z in
        let end_col_idx := (end_col - 1)%Z in
        if ((start_row >? num_rows) || (end_row >? num_rows))%Z then
          emit (WarnRangeRows cell_range num_rows) ;;; ret (PList [])
        else
          (if (end_col_idx >=? num_cols)%Z
           then emit (WarnRangeColumns cell_range num_cols)
           else ret tt) ;;;
          values <- collect_range df start_row end_row start_col_idx end_col_idx ;;
          ret (PList values)
    | parts => raise (UnpackError (length parts))
    end.
End Resolver.

(* ================================================================= *)
(** ** Records, tables and the environment *)

(** A Python [dict] with [str] keys: bindings in insertion order, each
    key once. *)
Definition dict : Type := list (str * PyVal).

(** [d[k] = v]: an existing key keeps its place, a new one goes last. *)
Fixpoint dict_set (d : dict) (k : str) (v : PyVal) : dict :=
  match d with
  | [] => [(k, v)]
  | (k', v') :: d' =>
      if str_eqb k' k then (k', v) :: d'
      else (k', v') :: dict_set d' k v
  end.

Fixpoint dict_get (d : dict) (k : str) : option PyVal :=
  match d with
  | [] => None
  | (k', v') :: d' => if str_eqb k' k then Some v' else dict_get d' k
  end.

Definition dict_keys (d : dict) : list str := map fst d.

Definition key_sheet : str := utf8 "sheet".
Definition key_source_file : str := utf8 "source_file".

Definition str_in (s : str) (l : list str) : bool := existsb (str_eqb s) l.

(** The columns of [pd.DataFrame(results)]: the keys of the records in
    the order in which they first appear. *)
Definition frame_columns (results : list dict) : list str :=
  fold_left
    (fun columns rowdict =>
       fold_left (fun columns k =>
                    if str_in k columns then columns else columns ++ [k])
                 (dict_keys rowdict) columns)
    results [].

(** Lines 145-153 and 396-399: the frame of the records, restricted to
    [final_cols]; a record lacking a column shows [NaN] there. *)
Definition output_table (results : list dict) (parsed_positions : list (str * str))
  : Table :=
  let columns := frame_columns results in
  let final_cols :=
    [key_sheet; key_source_file] ++ map snd parsed_positions in
  let final_cols := filter (fun col => str_in col columns) final_cols in
  {| header := final_cols;
     body := map (fun rowdict =>
                    map (fun col => match dict_get rowdict col with
                                    | Some v => v
                                    | None => PCell NaN
                                    end) final_cols)
                 results |}.

(** The functions of [os.path] the program calls; they depend on the
    platform, so results are stated for any of them. *)
Record OsPath : Type := {
  basename : str -> str;
  splitext : str -> str * str;
  path_join : str -> str -> str
}.

(** A workbook as the program sees it: its sheet names in the workbook's
    order, each with what [pd.read_excel] gives for it. *)
Definition Workbook : Type := list (str * (Exn + DataFrame)).

(** What opening a path gives. *)
Definition Disk : Type := str -> Exn + Workbook.

(* ================================================================= *)
(** ** Extraction *)

Section Extraction.
Variable U : Runtime.
Variable P : OsPath.
Variable disk : Disk.
(** What [to_excel] raises for a path and a table, if anything: pandas
    picks the writer's engine from the extension of the path and raises
    when it has none for it, and the file system may refuse the file. *)
Variable to_excel : str -> Table -> option Exn.

(** [df_output.to_excel(path, index=False)] (lines 154 and 400): the
    spreadsheet is written, or the writer's exception is raised and
    nothing is written. *)
Definition write_table (output_path : str) (table : Table) : Run unit :=
  match to_excel output_path table with
  | None => emit (Wrote output_path table)
  | Some e => raise e
  end.

(** Lines 133-139 and 381-386: one turn of the loop over the specs of a
    worksheet.  [report] is the line the [except] clause writes
    ([print] in the first copy, [self.log] in the second). *)
Definition extract_field (report : str -> Exn -> Event) (df : DataFrame)
           (spec : str * str) (rowdict : dict) : Run dict :=
  let (cell_range, column_header) := spec in
  try_except
    (val <- get_range_data_from_pandas U df cell_range ;;
     ret (dict_set rowdict column_header val))
    (fun e =>
       emit (report cell_range e) ;;;
       ret (dict_set rowdict column_header PNone)).

(** Lines 132-139 and 380-386: the loop over the specs. *)
Definition extract_fields (report : str -> Exn -> Event) (df : DataFrame)
           (parsed_positions : list (str * str)) (rowdict : dict) : Run dict :=
  for_in parsed_positions (extract_field report df) rowdict.

(** Line 130 and line 378. *)
Definition new_rowdict (sheet_name input_path : str) : dict :=
  [(key_sheet, PStr sheet_name);
   (key_source_file, PStr (basename P input_path))].

(** Lines 124-141: one turn of the loop over the sheets of a workbook;
    a sheet that cannot be read is reported and skipped ([continue]). *)
Definition read_sheet (input_excel_path : str)
           (parsed_positions : list (str * str))
           (sheet : str * (Exn + DataFrame)) (results : list dict)
  : Run (list dict) :=
  let (sheet_name, read) := sheet in
  match read with
  | inl e => emit (PrintSheetFailed sheet_name e) ;;; ret results
  | inr df =>
      rowdict <- extract_fields
                   (fun cell_range e =>
                      PrintExtractError cell_range sheet_name e)
                   df parsed_positions
                   (new_rowdict sheet_name input_excel_path) ;;
      ret (results ++ [rowdict])
  end.

(** Lines 123-141: the loop over the sheets. *)
Definition read_sheets (input_excel_path : str)
           (parsed_positions : list (str * str)) (excel_file : Workbook)
  : Run (list dict) :=
  for_in excel_file (read_sheet input_excel_path parsed_positions) [].

(** Lines 108-157. *)
Definition extract_excel_info_single_file
           (input_excel_path out_excel_path : str) (position_args : list str)
  : Run Z :=
  let parsed_positions := parse_position_args U position_args in
  excel_file <- try_except (lift (disk input_excel_path))
                           (fun e => raise (OpenFailed e)) ;;
  results <- read_sheets input_excel_path parsed_positions excel_file ;;
  match results with
  | _ :: _ =>
      write_table out_excel_path (output_table results parsed_positions) ;;;
      ret (Z.of_nat (length results))
  | [] => raise NoDataExtracted
  end.

(** Lines 371-389: one turn of the loop over the sheets in merge mode,
    appending to the shared [all_results]. *)
Definition merge_sheet (input_file : str)
           (parsed_positions : list (str * str))
           (sheet : str * (Exn + DataFrame)) (all_results : list dict)
  : Run (list dict) :=
  let (sheet_name, read) := sheet in
  match read with
  | inl e => emit (LogSheetFailed sheet_name e) ;;; ret all_results
  | inr df =>
      rowdict <- extract_fields LogExtractFailed df parsed_positions
                   (new_rowdict sheet_name input_file) ;;
      let all_results := all_results ++ [rowdict] in
      emit (LogSheetDone sheet_name) ;;;
      ret all_results
  end.

(** Lines 363-393: one turn of the loop over the input files in merge
    mode.  An exception that reaches the [except] of line 391 leaves
    [all_results] as it was: only opening the workbook can raise there
    (the loop over the sheets always returns, see [merge_sheets_eq]),
    and that happens before anything is appended. *)
Definition merge_file (parsed_positions : list (str * str))
           (input_file : str) (all_results : list dict) : Run (list dict) :=
  emit (LogProcessing (basename P input_file)) ;;;
  try_except
    (excel_file <- lift (disk input_file) ;;
     for_in excel_file (merge_sheet input_file parsed_positions) all_results)
    (fun e =>
       emit (LogFileError (basename P input_file) e) ;;;
       ret all_results).

(** Lines 357-404, [self.input_files] passed as [input_files].
    [parsed_positions] is assigned inside the [try] once a workbook has
    opened; its value does not depend on the file, and it is read (line
    397) only when a record exists, hence after a workbook has opened. *)
Definition extract_to_single_file (input_files : list str)
           (parameters : list str) (output_dir output_name : str) : Run unit :=
  let output_path := path_join P output_dir output_name in
  let parsed_positions := parse_position_args U parameters in
  all_results <- for_in input_files (merge_file parsed_positions) [] ;;
  match all_results with
  | _ :: _ =>
      write_table output_path (output_table all_results parsed_positions) ;;;
      emit (LogSaved output_path) ;;;
      emit (LogTotal (Z.of_nat (length all_results)))
  | [] => raise NoDataExtracted
  end.

(** Line 415: [f"{base_name}_{input_base}{extension}"], with lines
    408-409 and 414. *)
Definition derived_name (output_name input_file : str) : str :=
  let base_name := fst (splitext P output_name) in
  let extension := match snd (splitext P output_name) with
                   | [] => utf8 ".xlsx"
                   | ext => ext
                   end in
  let input_base := fst (splitext P (basename P input_file)) in
  base_name ++ utf8 "_" ++ input_base ++ extension.

(** Lines 412-422: one turn of the loop over the input files in
    per-file mode. *)
Definition extract_file (parameters : list str) (output_dir output_name : str)
           (input_file : str) (_ : unit) : Run unit :=
  emit (LogProcessing (basename P input_file)) ;;;
  let output_file := derived_name output_name input_file in
  let output_path := path_join P output_dir output_file in
  try_except
    (count <- extract_excel_info_single_file
                input_file output_path parameters ;;
     emit (LogCount count output_file))
    (fun e => emit (LogError e)).

(** Lines 406-422. *)
Definition extract_to_multiple_files (input_files : list str)
           (parameters : list str) (output_dir output_name : str) : Run unit :=
  for_in input_files (extract_file parameters output_dir output_name) tt.
End Extraction.

(** The files written during a run, in order. *)
Fixpoint written (trace : list Event) : list (str * Table) :=
  match trace with
  | [] => []
  | Wrote output_path table :: rest => (output_path, table) :: written rest
  | _ :: rest => written rest
  end.

(** A POSIX reading of [os.path], used where a concrete platform is
    needed. *)
Module Posix.
Definition slash : char := 47%N.
Definition dot : char := 46%N.

Definition posix_basename (p : str) : str := last (split slash p) [].

Definition posix_join (a b : str) : str :=
  match b with
  | c :: _ => if char_eqb c slash then b
              else match a with
                   | [] => b
                   | _ :: _ => if char_eqb (last a 0%N) slash then a ++ b
                               else a ++ slash :: b
                   end
  | [] => match a with
          | [] => []
          | _ :: _ => if char_eqb (last a 0%N) slash then a else a ++ [slash]
          end
  end.

Fixpoint leading_dots (s : str) : str * str :=
  match s with
  | c :: r => if char_eqb c dot
              then let (dots, rest) := leading_dots r in (c :: dots, rest)
              else ([], s)
  | [] => ([], [])
  end.

Definition posix_splitext (p : str) : str * str :=
  let name := posix_basename p in
  let head := firstn (length p - length name) p in
  let (dots, rest) := leading_dots name in
  match split dot rest with
  | [] | [_] => (p, [])
  | pieces => (head ++ dots ++ join dot (removelast pieces),
               dot :: last pieces [])
  end.

Definition os_path : OsPath :=
  {| basename := posix_basename;
     splitext := posix_splitext;
     path_join := posix_join |}.
End Posix.

(* ================================================================= *)
(** ** Well-formed cell tokens *)

(** The letters and digits of a cell reference such as [AB12]: one to
    three ASCII letters, then at least one ASCII digit, and no more
    digits than the interpreter reads as a number. *)
Definition is_cell_token (U : Runtime) (letters digits : str) : bool :=
  (1 <=? length letters) && (length letters <=? 3)
  && forallb ascii_alpha letters
  && (1 <=? length digits) && forallb ascii_digit digits
  && int_accepts U digits.

(** The number a run of ASCII digits denotes. *)
Definition row_of (digits : str) : Z :=
  fold_left (fun acc c => (10 * acc + Z.of_N (c - 48))%Z) digits 0%Z.

(** The column a run of ASCII letters denotes: base 26, A = 1. *)
Definition column_of (letters : str) : Z :=
  fold_left (fun acc c =>
               (26 * acc + Z.of_N (if ascii_upper c then c - 64 else c - 96))%Z)
            letters 0%Z.

(* ================================================================= *)
(** ** What a worksheet's record holds *)

Section Records.
Variable U : Runtime.
Variable P : OsPath.

(** The value a spec contributes: what the resolution returns, or the
    missing marker when it raises. *)
Definition field_value (df : DataFrame) (cell_range : str) : PyVal :=
  match outcome (get_range_data_from_pandas U df cell_range) with
  | inr val => val
  | inl _ => PNone
  end.

(** The lines a spec causes: the resolver's warnings, then the report of
    the exception if it raised one. *)
Definition field_events (report : str -> Exn -> Event) (df : DataFrame)
           (cell_range : str) : list Event :=
  events (get_range_data_from_pandas U df cell_range)
  ++ match outcome (get_range_data_from_pandas U df cell_range) with
     | inr _ => []
     | inl e => [report cell_range e]
     end.

(** The record after the specs were applied in order. *)
Definition filled (df : DataFrame) (specs : list (str * str)) (rowdict : dict)
  : dict :=
  fold_left (fun d spec => dict_set d (snd spec) (field_value df (fst spec)))
            specs rowdict.

Definition sheet_record (input_path : str) (specs : list (str * str))
           (sheet_name : str) (df : DataFrame) : dict :=
  filled df specs (new_rowdict P sheet_name input_path).

(** One record for each sheet that could be read, in the workbook's order. *)
Definition records_of (input_path : str) (specs : list (str * str))
           (excel_file : Workbook) : list dict :=
  flat_map (fun sheet =>
              match snd sheet with
              | inr df => [sheet_record input_path specs (fst sheet) df]
              | inl _ => []
              end)
           excel_file.

(** The lines one sheet causes in the loop over the sheets: [failed] for a
    sheet that cannot be read, else the lines of its specs and [done]. *)
Definition sheet_events (failed : str -> Exn -> Event)
           (report : str -> str -> Exn -> Event) (done : str -> list Event)
           (specs : list (str * str)) (sheet : str * (Exn + DataFrame))
  : list Event :=
  match snd sheet with
  | inl e => [failed (fst sheet) e]
  | inr df =>
      flat_map (fun spec => field_events (report (fst sheet)) df (fst spec))
               specs
      ++ done (fst sheet)
  end.

Definition printed_sheet_events :=
  sheet_events PrintSheetFailed
               (fun sheet_name cell_range e =>
                  PrintExtractError cell_range sheet_name e)
               (fun _ => []).

Definition logged_sheet_events :=
  sheet_events LogSheetFailed (fun _ => LogExtractFailed)
               (fun sheet_name => [LogSheetDone sheet_name]).
End Records.

(** The records one input file contributes: those of its worksheets, or
    none when the workbook cannot be opened. *)
Definition file_records (U : Runtime) (P : OsPath) (disk : Disk)
           (specs : list (str * str)) (input_file : str) : list dict :=
  match disk input_file with
  | inr excel_file => records_of U P input_file specs excel_file
  | inl _ => []
  end.

(** The records of a whole run, file after file. *)
Definition merged_records (U : Runtime) (P : OsPath) (disk : Disk)
           (specs : list (str * str)) (input_files : list str) : list dict :=
  flat_map (file_records U P disk specs) input_files.


(** The value a record shows in a column of the output. *)
Definition shown (rowdict : dict) (col : str) : PyVal :=
  match dict_get rowdict col with
  | Some v => v
  | None => PCell NaN
  end.

(* ================================================================= *)
(** ** Range slices and sample inputs *)

(** The slice of one row: its cells from [start_col_idx] to the last
    column of the range or of the sheet, then the padding of line 74. *)
Definition row_slice (df : DataFrame) (start_col_idx end_col_idx : Z)
           (row_idx : Z) : list (option Scalar) :=
  let num_cols := Z.of_nat (ncols df) in
  map (fun col_idx => Some (cell df (Z.to_nat row_idx) (Z.to_nat col_idx)))
      (py_range start_col_idx (Z.min (end_col_idx + 1) num_cols))
  ++ (if (end_col_idx >=? num_cols)%Z
      then repeat None (Z.to_nat (end_col_idx + 1 - num_cols))
      else []).

(** The files a run leaves: for each path the table written to it last. *)
Fixpoint output_after (writes : list (str * Table)) (path : str)
  : option Table :=
  match writes with
  | [] => None
  | (written_path, table) :: later =>
      match output_after later path with
      | Some last_table => Some last_table
      | None => if str_eqb written_path path then Some table else None
      end
  end.

(** A writer that knows an engine for the extensions [.xlsx] and
    [.xlsm] and for no other (pandas then raises its [ValueError]
    "No engine for filetype"), and that the file system never refuses. *)
Definition writer_by_extension (P : OsPath) (path : str) (table : Table)
  : option Exn :=
  let extension := snd (splitext P path) in
  if str_in extension [utf8 ".xlsx"; utf8 ".xlsm"]
  then None
  else Some (NoEngine extension).

(** A disk with one workbook of one sheet of two cells. *)
Definition sample_disk : Disk :=
  fun path =>
    if str_eqb path (utf8 "/data/book.xlsx")
    then inr [(utf8 "S1", inr (frame_of_rows 2 [[Number 1; Number 2]]))]
    else inl (ReadError 2).


(* ================================================================= *)
(** ** The form: parameter text, file list and the start button *)

Module Gui.

Definition newline : char := 10%N.

(** [c.isspace()] for an ASCII code point: tab to carriage return, the
    four separators 28 to 31, and the blank. *)
Definition ascii_space (c : char) : bool :=
  (((9 <=? c) && (c <=? 13)) || ((28 <=? c) && (c <=? 32)))%N.

(** [not l] for a string or a list. *)
Definition is_empty {A} (l : list A) : bool :=
  match l with
  | [] => true
  | _ :: _ => false
  end.

Section Text.
(** [c.isspace()] for a non-ASCII code point. *)
Variable uni_isspace : char -> bool.

Definition isspace (c : char) : bool :=
  if is_ascii c then ascii_space c else uni_isspace c.

(** [s.lstrip()], [s.rstrip()] and [s.strip()]. *)
Fixpoint lstrip (s : str) : str :=
  match s with
  | [] => []
  | c :: rest => if isspace c then lstrip rest else s
  end.

Definition rstrip (s : str) : str := rev (lstrip (rev s)).

Definition strip (s : str) : str := rstrip (lstrip s).

(** Lines 309-314.  [param_text] is what the text widget holds;
    [get(1.0, tk.END)] gives it followed by the newline Tk ends every
    text with. *)
Definition get_parameters (param_text : str) : list str :=
  let text := strip (param_text ++ [newline]) in
  if is_empty text then []
  else map strip
           (filter (fun line => negb (is_empty (strip line)))
                   (split newline text)).
(** A line as a user means a parameter: not empty, on one line, and
    with no blank at either end. *)
Definition is_trimmed_line (line : str) : bool :=
  negb (is_empty line)
  && negb (isspace (hd 0%N line))
  && negb (isspace (last line 0%N))
  && negb (contains newline line).
End Text.

(** Lines 169-173. *)
Definition default_params : list str :=
  [utf8 "F4-样品名称"; utf8 "N7-类型"; utf8 "F6-进样体积"; utf8 "A15-保留时间";
   utf8 "N8-样品含量"; utf8 "N6-位置"; utf8 "E15-峰宽[min]"; utf8 "G15-峰面积";
   utf8 "H15-峰高"; utf8 "K15-峰面积%"; utf8 "C15-类型"; utf8 "G16-总和"].

(** The loop of lines 260-261 for a list of parameters: each one is
    inserted at the end of the text, followed by a newline. *)
Definition insert_lines (params : list str) (param_text : str) : str :=
  fold_left (fun text param => text ++ (param ++ [newline])) params param_text.

(** Lines 257-261: the text is emptied, then filled. *)
Definition load_default_params (param_text : str) : str :=
  insert_lines default_params [].

(** Lines 269-271. *)
Definition clear_parameters (param_text : str) : str := [].

(** The list of input files and the list box that shows them. *)
Record Files : Type := {
  input_files : list str;
  file_listbox : list str
}.

(** Lines 273-282, for the paths the file dialog returned. *)
Definition add_files (P : OsPath) (files : list str) (st : Files) : Files :=
  fold_left
    (fun st file =>
       if str_in file (input_files st) then st
       else {| input_files := input_files st ++ [file];
               file_listbox := file_listbox st ++ [basename P file] |})
    files st.

(** [l.pop(index)] and the list box's [delete(index)] leave this. *)
Definition remove_at {A} (index : nat) (l : list A) : list A :=
  firstn index l ++ skipn (S index) l.

(** Lines 284-290, for the list box's current selection.  [pop] raises
    [IndexError] beyond the list; the list box ignores such an index. *)
Definition remove_selected_file (selection : list nat) (st : Files)
  : Exn + Files :=
  match selection with
  | [] => inr st
  | index :: _ =>
      if index <? length (input_files st) then
        inr {| input_files := remove_at index (input_files st);
               file_listbox := remove_at index (file_listbox st) |}
      else inl IndexError
  end.

(** Lines 292-295. *)
Definition clear_files (st : Files) : Files :=
  {| input_files := []; file_listbox := [] |}.

(** The list box shows the base names of the input files, entry for
    entry, and no input file is listed twice. *)
Definition files_in_step (P : OsPath) (st : Files) : Prop :=
  NoDup (input_files st)
  /\ file_listbox st = map (basename P) (input_files st).

(** The message boxes of [start_extraction]. *)
Inductive Dialog : Type :=
| AskForFile                       (* line 319 *)
| AskForParameter                  (* line 324 *)
| AskForOutputDir                  (* line 329 *)
| AskForOutputName                 (* line 334 *)
| ExtractionDone                   (* line 350 *)
| ExtractionFailed (e : Exn).      (* line 355 *)

(** What pressing the start button causes, in order. *)
Inductive UiEvent : Type :=
| Show (d : Dialog)
| MakeDirs (output_dir : str)      (* line 338 *)
| LogStarted                       (* line 340 *)
| Engine (ev : Event)              (* what the extraction itself does *)
| LogFailed (e : Exn).             (* line 354 *)

(** The state [start_extraction] reads. *)
Record App : Type := {
  files : Files;
  param_text : str;
  output_dir_var : str;
  output_name_var : str;
  output_mode : str
}.

Section Start.
Variable U : Runtime.
Variable P : OsPath.
Variable disk : Disk.
Variable to_excel : str -> Table -> option Exn.
Variable uni_isspace : char -> bool.
(** What [os.makedirs(output_dir, exist_ok=True)] raises, if anything. *)
Variable makedirs : str -> option Exn.

(** Lines 342-355: the chosen mode inside the [try]. *)
Definition run_mode (app : App) (parameters : list str) : Run unit :=
  if str_eqb (output_mode app) (utf8 "single")
  then extract_to_single_file U P disk to_excel (input_files (files app))
                              parameters
                              (output_dir_var app) (output_name_var app)
  else extract_to_multiple_files U P disk to_excel (input_files (files app))
                                 parameters
                                 (output_dir_var app) (output_name_var app).

(** Lines 316-355. *)
Definition start_extraction (app : App) : list UiEvent * (Exn + unit) :=
  if is_empty (input_files (files app)) then ([Show AskForFile], inr tt)
  else
    let parameters := get_parameters uni_isspace (param_text app) in
    match parameters with
    | [] => ([Show AskForParameter], inr tt)
    | _ :: _ =>
        if is_empty (output_dir_var app) then ([Show AskForOutputDir], inr tt)
        else if is_empty (output_name_var app)
        then ([Show AskForOutputName], inr tt)
        else
          match makedirs (output_dir_var app) with
          | Some e => ([], inl e)
          | None =>
              let run := run_mode app parameters in
              ([MakeDirs (output_dir_var app); LogStarted]
               ++ map Engine (events run)
               ++ match outcome run with
                  | inr _ => [Show ExtractionDone]
                  | inl e => [LogFailed e; Show (ExtractionFailed e)]
                  end,
               inr tt)
          end
    end.
End Start.

End Gui.

(* ================================================================= *)
(** * Properties *)

(** ** Strings *)

Lemma char_eqb_eq (a b : char) : char_eqb a b = true <-> a = b.
Proof. unfold char_eqb. apply N.eqb_eq. Qed.

Lemma char_eqb_refl (a : char) : char_eqb a a = true.
Proof. apply char_eqb_eq. reflexivity. Qed.

Lemma str_eqb_eq (a b : str) : str_eqb a b = true <-> a = b.
Proof.
  revert b. induction a as [|x a IH]; intros [|y b]; simpl; split;
    intro H; try reflexivity; try discriminate.
  - apply andb_true_iff in H as [Hx Ha].
    apply char_eqb_eq in Hx. apply IH in Ha. congruence.
  - injection H as -> ->. rewrite char_eqb_refl. simpl. apply IH. reflexivity.
Qed.

Lemma str_eqb_refl (a : str) : str_eqb a a = true.
Proof. apply str_eqb_eq. reflexivity. Qed.

Lemma str_eqb_neq (a b : str) : str_eqb a b = false <-> a <> b.
Proof.
  split.
  - intros H E. apply str_eqb_eq in E. congruence.
  - intro H. destruct (str_eqb a b) eqn:E; [|reflexivity].
    apply str_eqb_eq in E. contradiction.
Qed.

Lemma contains_In (c : char) (s : str) : contains c s = true <-> In c s.
Proof.
  unfold contains. rewrite existsb_exists. split.
  - intros [x [Hx E]]. apply char_eqb_eq in E. subst. exact Hx.
  - intro H. exists c. split; [exact H | apply char_eqb_refl].
Qed.

Lemma contains_not_In (c : char) (s : str) : contains c s = false <-> ~ In c s.
Proof.
  rewrite <- contains_In. destruct (contains c s); split; intro H;
    try reflexivity; try discriminate; try congruence.
Qed.

Lemma split_not_nil (sep : char) (s : str) : split sep s <> [].
Proof.
  induction s as [|c r IH]; simpl; [discriminate|].
  destruct (char_eqb c sep); [discriminate|].
  destruct (split sep r); [contradiction | discriminate].
Qed.

(** Joining what was split gives the string back. *)
Lemma join_split (sep : char) (s : str) : join sep (split sep s) = s.
Proof.
  induction s as [|c r IH]; [reflexivity|].
  simpl split. destruct (char_eqb c sep) eqn:E.
  - apply char_eqb_eq in E. subst c.
    pose proof (split_not_nil sep r) as Hn.
    destruct (split sep r) as [|p ps]; [contradiction|].
    change (join sep ([] :: p :: ps)) with ([] ++ sep :: join sep (p :: ps)).
    rewrite IH. reflexivity.
  - pose proof (split_not_nil sep r) as Hn.
    destruct (split sep r) as [|p ps]; [contradiction|].
    destruct ps as [|q qs]; simpl in *; rewrite <- IH; reflexivity.
Qed.

Lemma join_cons (sep : char) (p : str) (ps : list str) :
  ps <> [] -> join sep (p :: ps) = p ++ sep :: join sep ps.
Proof. destruct ps; [contradiction | reflexivity]. Qed.

Lemma join_app (sep : char) (l1 l2 : list str) :
  l1 <> [] -> l2 <> [] ->
  join sep (l1 ++ l2) = join sep l1 ++ sep :: join sep l2.
Proof.
  induction l1 as [|p l1 IH]; intros H1 H2; [contradiction|].
  destruct l1 as [|q l1].
  - simpl app. rewrite join_cons by exact H2. reflexivity.
  - change ((p :: q :: l1) ++ l2) with (p :: ((q :: l1) ++ l2)).
    rewrite join_cons by discriminate.
    rewrite IH by (discriminate || exact H2).
    rewrite (join_cons sep p (ps := q :: l1)) by discriminate.
    rewrite <- app_assoc. reflexivity.
Qed.

(** A split at the [i]-th dash: the two sides, put back around a dash,
    are the line. *)
Lemma join_firstn_skipn (sep : char) (s : str) (i : nat) :
  1 <= i < length (split sep s) ->
  join sep (firstn i (split sep s)) ++ sep :: join sep (skipn i (split sep s)) = s.
Proof.
  intros [H1 H2]. rewrite <- (join_split sep s) at 3.
  rewrite <- (firstn_skipn i (split sep s)) at 3.
  symmetry. apply join_app.
  - intro E. apply (f_equal (@length _)) in E.
    rewrite length_firstn in E. simpl in E. lia.
  - intro E. apply (f_equal (@length _)) in E.
    rewrite length_skipn in E. simpl in E. lia.
Qed.

(** ** The spec parser *)

Section SpecParserFacts.
Variable U : Runtime.

Lemma parse_position_args_map (position_args : list str) :
  parse_position_args U position_args = map (parse_position_arg U) position_args.
Proof.
  unfold parse_position_args.
  enough (G : forall acc,
             fold_left (fun parsed_positions arg =>
                          parsed_positions ++ [parse_position_arg U arg])
                       position_args acc
             = acc ++ map (parse_position_arg U) position_args)
    by apply (G []).
  induction position_args as [|a l IH]; intro acc; simpl.
  - rewrite app_nil_r. reflexivity.
  - rewrite IH, <- app_assoc. reflexivity.
Qed.

Lemma scan_splits_S (parts : list str) (n : nat) :
  scan_splits U parts (S n)
  = if looks_like_cell U (join dash (firstn (S n) parts))
    then Some (join dash (firstn (S n) parts), join dash (skipn (S n) parts))
    else scan_splits U parts n.
Proof. reflexivity. Qed.

(** The scan from [n] downwards stops at the greatest qualifying index. *)
Lemma scan_splits_found (parts : list str) (n i : nat) :
  1 <= i <= n ->
  looks_like_cell U (join dash (firstn i parts)) = true ->
  (forall j, i < j <= n ->
             looks_like_cell U (join dash (firstn j parts)) = false) ->
  scan_splits U parts n
  = Some (join dash (firstn i parts), join dash (skipn i parts)).
Proof.
  intros Hi Hok Hlater. induction n as [|n IH]; [lia|].
  destruct (Nat.eq_dec i (S n)) as [->|Hne].
  - rewrite scan_splits_S, Hok. reflexivity.
  - rewrite scan_splits_S, (Hlater (S n)) by lia.
    apply IH; [lia|]. intros j Hj. apply Hlater. lia.
Qed.

Lemma scan_splits_none (parts : list str) (n : nat) :
  (forall j, 1 <= j <= n ->
             looks_like_cell U (join dash (firstn j parts)) = false) ->
  scan_splits U parts n = None.
Proof.
  intro H. induction n as [|n IH]; [reflexivity|].
  rewrite scan_splits_S, (H (S n)) by lia.
  apply IH. intros j Hj. apply H. lia.
Qed.
End SpecParserFacts.

(** C1.  Spec parsing.  The lines are parsed one by one.  A line without a
    dash gives the whole line as expression and as field name.  For a line
    with dashes, let [parts] be its pieces between the dashes; splitting at
    the [i]-th dash gives the first [i] pieces (joined by dashes) on the
    left and the remaining ones on the right.  The split accepted is the
    one at the rightmost dash whose left side has a digit and a letter (no
    dash further right qualifies), and its two sides around a dash are the
    line again; when no dash qualifies both components are the whole line.
    The four lines of the specification parse as it says. *)
Theorem C1_parse_position_args (U : Runtime) :
  (forall position_args,
      parse_position_args U position_args
      = map (parse_position_arg U) position_args) /\
  (forall arg, ~ In dash arg -> parse_position_arg U arg = (arg, arg)) /\
  (forall arg i,
      In dash arg ->
      let parts := split dash arg in
      1 <= i < length parts ->
      looks_like_cell U (join dash (firstn i parts)) = true ->
      (forall j, i < j < length parts ->
                 looks_like_cell U (join dash (firstn j parts)) = false) ->
      parse_position_arg U arg
      = (join dash (firstn i parts), join dash (skipn i parts))
      /\ join dash (firstn i parts) ++ dash :: join dash (skipn i parts) = arg) /\
  (forall arg,
      In dash arg ->
      let parts := split dash arg in
      (forall i, 1 <= i < length parts ->
                 looks_like_cell U (join dash (firstn i parts)) = false) ->
      parse_position_arg U arg = (arg, arg)) /\
  parse_position_arg U (utf8 "F4-样品名称") = (utf8 "F4", utf8 "样品名称") /\
  parse_position_arg U (utf8 "G15-峰面积%") = (utf8 "G15", utf8 "峰面积%") /\
  parse_position_arg U (utf8 "F1:P1-Header") = (utf8 "F1:P1", utf8 "Header") /\
  parse_position_arg U (utf8 "NoDashHere") = (utf8 "NoDashHere", utf8 "NoDashHere").
Proof.
  split; [apply parse_position_args_map|].
  split.
  { intros arg H. unfold parse_position_arg.
    apply contains_not_In in H. rewrite H. reflexivity. }
  split.
  { intros arg i Hin parts Hi Hok Hlater. split.
    - unfold parse_position_arg. apply contains_In in Hin. rewrite Hin.
      fold parts.
      rewrite (@scan_splits_found U parts (length parts - 1) i);
        [reflexivity | lia | exact Hok |].
      intros j Hj. apply Hlater. lia.
    - apply join_firstn_skipn. exact Hi. }
  split.
  { intros arg Hin parts Hnone. unfold parse_position_arg.
    apply contains_In in Hin. rewrite Hin. fold parts.
    rewrite scan_splits_none; [reflexivity|].
    intros j Hj. apply Hnone. lia. }
  repeat apply conj; vm_compute; reflexivity.
Qed.

(** ** The effect monad *)

Lemma bind_ret_l {A B} (a : A) (k : A -> Run B) : bind (ret a) k = k a.
Proof. unfold bind, ret. destruct (k a). reflexivity. Qed.

Lemma bind_raise {A B} (e : Exn) (k : A -> Run B) : bind (raise e) k = raise e.
Proof. reflexivity. Qed.

Lemma bind_emit {B} (ev : Event) (k : unit -> Run B) :
  bind (emit ev) k = (ev :: events (k tt), outcome (k tt)).
Proof. unfold bind, emit, events, outcome. destruct (k tt). reflexivity. Qed.

Lemma bind_ret_r {A} (m : Run A) : bind m ret = m.
Proof.
  destruct m as [out [e|a]]; simpl; [reflexivity|].
  rewrite app_nil_r. reflexivity.
Qed.

Lemma lift_inr {A} (a : A) : lift (inr a) = ret a.
Proof. reflexivity. Qed.

Lemma lift_inl {A} (e : Exn) : lift (inl e) = @raise A e.
Proof. reflexivity. Qed.

Lemma for_in_app {A S} (xs ys : list A) (body : A -> S -> Run S) (s : S) :
  for_in (xs ++ ys) body s = bind (for_in xs body s) (for_in ys body).
Proof.
  revert s. induction xs as [|x xs IH]; intro s; simpl.
  - destruct (for_in ys body s). reflexivity.
  - destruct (body x s) as [out [e|s']]; simpl; [reflexivity|].
    rewrite IH. destruct (for_in xs body s') as [out1 [e|s1]]; simpl.
    + reflexivity.
    + destruct (for_in ys body s1) as [out2 r]. rewrite app_assoc. reflexivity.
Qed.

(** ** Coordinates *)

Lemma ascii_digit_is_ascii (c : char) : ascii_digit c = true -> is_ascii c = true.
Proof.
  unfold ascii_digit, is_ascii. intro H.
  apply andb_true_iff in H as [_ H]. apply N.leb_le in H.
  apply N.ltb_lt. lia.
Qed.

Lemma ascii_alpha_is_ascii (c : char) : ascii_alpha c = true -> is_ascii c = true.
Proof.
  unfold ascii_alpha, ascii_upper, ascii_lower, is_ascii. intro H.
  apply N.ltb_lt.
  apply orb_true_iff in H as [H|H]; apply andb_true_iff in H as [_ H];
    apply N.leb_le in H; lia.
Qed.

Lemma ascii_alpha_not_digit (c : char) : ascii_alpha c = true -> ascii_digit c = false.
Proof.
  unfold ascii_alpha, ascii_upper, ascii_lower, ascii_digit. intro H.
  apply andb_false_iff. right. apply N.leb_gt.
  apply orb_true_iff in H as [H|H]; apply andb_true_iff in H as [H _];
    apply N.leb_le in H; lia.
Qed.

Lemma ascii_alpha_not_colon (c : char) : ascii_alpha c = true -> c <> colon.
Proof. intros H ->. vm_compute in H. discriminate. Qed.

Lemma ascii_digit_not_colon (c : char) : ascii_digit c = true -> c <> colon.
Proof. intros H ->. vm_compute in H. discriminate. Qed.

Section CoordinateFacts.
Variable U : Runtime.

Lemma char_isdigit_ascii_digit (c : char) :
  ascii_digit c = true -> char_isdigit U c = true.
Proof.
  intro H. unfold char_isdigit. rewrite (ascii_digit_is_ascii c H). exact H.
Qed.

Lemma char_isdigit_ascii_alpha (c : char) :
  ascii_alpha c = true -> char_isdigit U c = false.
Proof.
  intro H. unfold char_isdigit. rewrite (ascii_alpha_is_ascii c H).
  apply ascii_alpha_not_digit. exact H.
Qed.

Lemma isdigit_ascii_digits (digits : str) :
  digits <> [] -> forallb ascii_digit digits = true -> isdigit U digits = true.
Proof.
  intros Hne H. destruct digits as [|c r]; [contradiction|].
  unfold isdigit. apply forallb_forall. intros x Hx.
  apply char_isdigit_ascii_digit.
  rewrite forallb_forall in H. apply H. exact Hx.
Qed.

Lemma isdigit_head_false (c : char) (rest : str) :
  char_isdigit U c = false -> isdigit U (c :: rest) = false.
Proof. intro H. simpl. rewrite H. reflexivity. Qed.

Lemma isdigit_nil : isdigit U [] = false.
Proof. reflexivity. Qed.

(** A suffix that starts inside the letters is not a digit string. *)
Lemma isdigit_inside_letters (letters digits : str) (i : nat) :
  forallb ascii_alpha letters = true -> i < length letters ->
  isdigit U (skipn i (letters ++ digits)) = false.
Proof.
  intros Hal Hi. rewrite skipn_app.
  destruct (skipn i letters) as [|x rest] eqn:E.
  - apply (f_equal (@length _)) in E. rewrite length_skipn in E.
    simpl in E. lia.
  - simpl app. apply isdigit_head_false. apply char_isdigit_ascii_alpha.
    rewrite forallb_forall in Hal. apply Hal.
    assert (Hin : In x (skipn i letters)) by (rewrite E; left; reflexivity).
    revert Hin. clear. revert i. induction letters as [|y l IH]; intros [|i] H;
      simpl in *; eauto.
Qed.

Lemma first_digit_suffix_seq (token : str) (n a i : nat) :
  a <= i < a + n ->
  (forall j, a <= j < i -> isdigit U (skipn j token) = false) ->
  isdigit U (skipn i token) = true ->
  first_digit_suffix U token (seq a n) = Some i.
Proof.
  revert a. induction n as [|n IH]; intros a Hi Hbefore Hat; [lia|].
  simpl. destruct (Nat.eq_dec a i) as [->|Hne].
  - rewrite Hat. reflexivity.
  - rewrite (Hbefore a) by lia. apply IH; [lia | | exact Hat].
    intros j Hj. apply Hbefore. lia.
Qed.

Lemma first_digit_suffix_none (token : str) (indices : list nat) :
  (forall i, In i indices -> isdigit U (skipn i token) = false) ->
  first_digit_suffix U token indices = None.
Proof.
  induction indices as [|i rest IH]; intro H; [reflexivity|].
  simpl. rewrite (H i) by (left; reflexivity).
  apply IH. intros j Hj. apply H. right. exact Hj.
Qed.

Lemma int_from_ascii (digits : str) (acc : Z) :
  forallb ascii_digit digits = true ->
  int_from U acc digits
  = Some (fold_left (fun acc c => (10 * acc + Z.of_N (c - 48))%Z) digits acc).
Proof.
  revert acc. induction digits as [|c r IH]; intros acc H; [reflexivity|].
  simpl in H. apply andb_true_iff in H as [Hc Hr].
  simpl. unfold digit_value. rewrite (ascii_digit_is_ascii c Hc), Hc.
  apply IH. exact Hr.
Qed.

Lemma int_ascii (digits : str) :
  digits <> [] -> forallb ascii_digit digits = true ->
  int_accepts U digits = true ->
  int U digits = inr (row_of digits).
Proof.
  intros Hne H Hacc. unfold int. destruct digits as [|c r]; [contradiction|].
  rewrite Hacc, int_from_ascii by exact H. reflexivity.
Qed.

Lemma column_from_ascii (letters : str) (acc : Z) :
  forallb ascii_alpha letters = true ->
  column_from acc letters
  = Some (fold_left
            (fun acc c =>
               (26 * acc + Z.of_N (if ascii_upper c then c - 64 else c - 96))%Z)
            letters acc).
Proof.
  revert acc. induction letters as [|c r IH]; intros acc H; [reflexivity|].
  simpl in H. apply andb_true_iff in H as [Hc Hr].
  simpl. unfold letter_value. unfold ascii_alpha in Hc.
  destruct (ascii_upper c) eqn:Eu.
  - apply IH. exact Hr.
  - simpl in Hc. rewrite Hc. apply IH. exact Hr.
Qed.

Lemma forallb_alpha_ascii (letters : str) :
  forallb ascii_alpha letters = true -> forallb is_ascii letters = true.
Proof.
  intro H. apply forallb_forall. intros x Hx. apply ascii_alpha_is_ascii.
  rewrite forallb_forall in H. apply H. exact Hx.
Qed.

Lemma is_cell_token_parts (letters digits : str) :
  is_cell_token U letters digits = true ->
  1 <= length letters <= 3 /\ forallb ascii_alpha letters = true /\
  1 <= length digits /\ forallb ascii_digit digits = true.
Proof.
  unfold is_cell_token. intro H.
  apply andb_true_iff in H as [H _].
  repeat (apply andb_true_iff in H as [H ?]).
  repeat match goal with
         | X : (_ <=? _) = true |- _ => apply Nat.leb_le in X
         end.
  auto.
Qed.

Lemma is_cell_token_int (letters digits : str) :
  is_cell_token U letters digits = true -> int_accepts U digits = true.
Proof.
  unfold is_cell_token. intro H. apply andb_true_iff in H as [_ H]. exact H.
Qed.

Lemma column_index_of_letters (letters digits : str) :
  is_cell_token U letters digits = true ->
  column_index_from_string U letters = inr (column_of letters).
Proof.
  intro H. apply is_cell_token_parts in H as [[Hl1 Hl3] [Hal _]].
  unfold column_index_from_string.
  rewrite (forallb_alpha_ascii letters Hal).
  assert (E : (1 <=? length letters) && (length letters <=? 3) = true).
  { apply andb_true_iff. split; apply Nat.leb_le; assumption. }
  rewrite E, column_from_ascii by exact Hal. reflexivity.
Qed.

(** The scan finds the boundary between the letters and the digits. *)
Lemma scan_cell_token (failure : Exn) (letters digits : str) :
  is_cell_token U letters digits = true ->
  scan_cell U failure (letters ++ digits) = ret (letters, row_of digits).
Proof.
  intro H. pose proof (is_cell_token_int _ _ H) as Hacc.
  apply is_cell_token_parts in H as [[Hl1 Hl3] [Hal [Hd1 Hdg]]].
  assert (Hdne : digits <> []) by (intro E; subst; simpl in Hd1; lia).
  unfold scan_cell.
  rewrite (@first_digit_suffix_seq (letters ++ digits) _ 1 (length letters)).
  - rewrite firstn_app, Nat.sub_diag, firstn_all. simpl firstn.
    rewrite app_nil_r.
    rewrite skipn_app, Nat.sub_diag, skipn_all. simpl.
    rewrite int_ascii by assumption. reflexivity.
  - rewrite length_app. lia.
  - intros j Hj. apply isdigit_inside_letters; [exact Hal | lia].
  - rewrite skipn_app, Nat.sub_diag, skipn_all. simpl.
    apply isdigit_ascii_digits; assumption.
Qed.

(** A token without a digit suffix makes the scan raise [failure]. *)
Lemma scan_cell_no_digit_suffix (failure : Exn) (token : str) :
  (forall i, isdigit U (skipn i token) = false) ->
  scan_cell U failure token = raise failure.
Proof.
  intro H. unfold scan_cell. rewrite first_digit_suffix_none; [reflexivity|].
  intros i _. apply H.
Qed.
End CoordinateFacts.

Lemma row_of_nonneg (digits : str) : (0 <= row_of digits)%Z.
Proof.
  unfold row_of.
  enough (G : forall acc, (0 <= acc)%Z ->
              (0 <= fold_left (fun acc c => (10 * acc + Z.of_N (c - 48))%Z)
                              digits acc)%Z) by (apply G; lia).
  induction digits as [|c r IH]; intros acc Hacc; cbn [fold_left]; [exact Hacc|].
  apply IH. pose proof (N2Z.is_nonneg (c - 48)). lia.
Qed.

Lemma column_of_positive (letters : str) :
  letters <> [] -> forallb ascii_alpha letters = true -> (1 <= column_of letters)%Z.
Proof.
  unfold column_of. intros Hne Hal.
  assert (G : forall l acc, (1 <= acc)%Z ->
              (1 <= fold_left
                      (fun acc c =>
                         (26 * acc
                          + Z.of_N (if ascii_upper c then c - 64 else c - 96))%Z)
                      l acc)%Z).
  { induction l as [|c r IH]; intros acc Hacc; cbn [fold_left]; [exact Hacc|].
    apply IH.
    pose proof (N2Z.is_nonneg (if ascii_upper c then c - 64 else c - 96)). lia. }
  destruct letters as [|c r]; [contradiction|].
  cbn [fold_left]. apply G. simpl in Hal. apply andb_true_iff in Hal as [Hc _].
  unfold ascii_alpha, ascii_upper, ascii_lower in *.
  change char with N in *.
  destruct ((65 <=? c)%N && (c <=? 90)%N) eqn:Eu.
  - apply andb_true_iff in Eu as [E1 _]. apply N.leb_le in E1. lia.
  - simpl in Hc. apply andb_true_iff in Hc as [E1 _]. apply N.leb_le in E1. lia.
Qed.

Lemma cell_token_no_colon (U : Runtime) (letters digits : str) :
  is_cell_token U letters digits = true -> ~ In colon (letters ++ digits).
Proof.
  intros H Hin. apply is_cell_token_parts in H as [_ [Hal [_ Hdg]]].
  apply in_app_or in Hin as [Hin|Hin].
  - rewrite forallb_forall in Hal. apply (ascii_alpha_not_colon (Hal _ Hin)).
    reflexivity.
  - rewrite forallb_forall in Hdg. apply (ascii_digit_not_colon (Hdg _ Hin)).
    reflexivity.
Qed.

Lemma split_no_sep (sep : char) (s : str) : ~ In sep s -> split sep s = [s].
Proof.
  induction s as [|c r IH]; intro H; [reflexivity|].
  simpl. destruct (char_eqb c sep) eqn:E.
  - apply char_eqb_eq in E. subst. exfalso. apply H. left. reflexivity.
  - rewrite IH; [reflexivity|]. intro Hin. apply H. right. exact Hin.
Qed.

Lemma split_app_sep (sep : char) (a b : str) :
  ~ In sep a -> split sep (a ++ sep :: b) = a :: split sep b.
Proof.
  induction a as [|c r IH]; intro H.
  - simpl. rewrite char_eqb_refl. reflexivity.
  - simpl. destruct (char_eqb c sep) eqn:E.
    + apply char_eqb_eq in E. subst. exfalso. apply H. left. reflexivity.
    + rewrite IH; [reflexivity|]. intro Hin. apply H. right. exact Hin.
Qed.

Lemma contains_app_sep (sep : char) (a b : str) :
  contains sep (a ++ sep :: b) = true.
Proof. apply contains_In. apply in_or_app. right. left. reflexivity. Qed.

(** ** Range resolution *)

Lemma position_in_bounds (i n : Z) :
  (0 <= i < n)%Z -> position i n = Some (Z.to_nat i).
Proof.
  intros [H0 Hn]. unfold position.
  destruct (Z.leb_spec 0 i); [|lia]. destruct (Z.ltb_spec i n); [|lia].
  reflexivity.
Qed.

Lemma iloc_in_bounds (df : DataFrame) (row_idx col_idx : Z) :
  (0 <= row_idx < Z.of_nat (nrows df))%Z ->
  (0 <= col_idx < Z.of_nat (ncols df))%Z ->
  iloc df row_idx col_idx = inr (cell df (Z.to_nat row_idx) (Z.to_nat col_idx)).
Proof.
  intros Hr Hc. unfold iloc.
  rewrite (position_in_bounds Hr), (position_in_bounds Hc). reflexivity.
Qed.

Section ResolverFacts.
Variable U : Runtime.
Variable df : DataFrame.

Let num_rows : Z := Z.of_nat (nrows df).
Let num_cols : Z := Z.of_nat (ncols df).

(** What the single-cell branch does once the token has been read. *)
Lemma single_cell_resolution (letters digits : str) :
  is_cell_token U letters digits = true ->
  get_range_data_from_pandas U df (letters ++ digits)
  = if (row_of digits >? num_rows)%Z then
      ([WarnRow (letters ++ digits) (row_of digits) num_rows], inr PNone)
    else if (column_of letters - 1 >=? num_cols)%Z then
      ([WarnColumn (letters ++ digits) letters (column_of letters) num_cols],
       inr PNone)
    else
      bind (lift (iloc df (row_of digits - 1) (column_of letters - 1)))
           (fun v => ret (PCell v)).
Proof.
  intro H. unfold get_range_data_from_pandas.
  pose proof (cell_token_no_colon _ _ _ H) as Hc.
  apply contains_not_In in Hc. rewrite Hc. cbn [negb].
  rewrite scan_cell_token by exact H. rewrite bind_ret_l.
  rewrite (column_index_of_letters U _ _ H), lift_inr, bind_ret_l.
  fold num_rows num_cols.
  destruct (row_of digits >? num_rows)%Z; [reflexivity|].
  destruct (column_of letters - 1 >=? num_cols)%Z; [|reflexivity].
  rewrite Z.sub_add. reflexivity.
Qed.

(** What the range branch does once both endpoints have been read. *)
Lemma range_resolution (sl sd el ed : str) :
  is_cell_token U sl sd = true -> is_cell_token U el ed = true ->
  let cell_range := (sl ++ sd) ++ colon :: (el ++ ed) in
  get_range_data_from_pandas U df cell_range
  = if ((row_of sd >? num_rows) || (row_of ed >? num_rows))%Z then
      ([WarnRangeRows cell_range num_rows], inr (PList []))
    else
      bind (if (column_of el - 1 >=? num_cols)%Z
            then emit (WarnRangeColumns cell_range num_cols)
            else ret tt)
           (fun _ =>
              bind (collect_range df (row_of sd) (row_of ed)
                                  (column_of sl - 1) (column_of el - 1))
                   (fun values => ret (PList values))).
Proof.
  intros Hs He cell_range. unfold get_range_data_from_pandas.
  unfold cell_range at 1. rewrite contains_app_sep. cbn [negb].
  unfold cell_range at 1.
  rewrite split_app_sep by (apply (cell_token_no_colon _ _ _ Hs)).
  rewrite split_no_sep by (apply (cell_token_no_colon _ _ _ He)).
  rewrite scan_cell_token by exact Hs. rewrite bind_ret_l.
  rewrite scan_cell_token by exact He. rewrite bind_ret_l.
  rewrite (column_index_of_letters U _ _ Hs), lift_inr, bind_ret_l.
  rewrite (column_index_of_letters U _ _ He), lift_inr, bind_ret_l.
  fold num_rows num_cols.
  destruct ((row_of sd >? num_rows) || (row_of ed >? num_rows))%Z;
    reflexivity.
Qed.
End ResolverFacts.

(** C4 (as amended).  Single-cell resolution.  For a single-cell token
    made of one to three ASCII letters, then ASCII digits that the
    interpreter reads as a number and that name a row of at least 1: when
    the row exceeds the sheet's row count or the 0-based column index is
    at least its column count, the result is the missing marker with one
    warning and no exception (the row is checked first); when both are in
    bounds the result is the cell at the 0-based position
    (row-1, col-1), with no warning. *)
Theorem C4_single_cell_resolution
        (U : Runtime) (df : DataFrame) (letters digits : str) :
  is_cell_token U letters digits = true ->
  (1 <= row_of digits)%Z ->
  let token := letters ++ digits in
  let row := row_of digits in
  let col := column_of letters in
  let num_rows := Z.of_nat (nrows df) in
  let num_cols := Z.of_nat (ncols df) in
  ((row > num_rows \/ col - 1 >= num_cols)%Z ->
   exists warning,
     is_warning warning = true /\
     get_range_data_from_pandas U df token = ([warning], inr PNone)) /\
  ((row > num_rows)%Z ->
   get_range_data_from_pandas U df token
   = ([WarnRow token row num_rows], inr PNone)) /\
  ((row <= num_rows)%Z -> (col - 1 >= num_cols)%Z ->
   get_range_data_from_pandas U df token
   = ([WarnColumn token letters col num_cols], inr PNone)) /\
  ((row <= num_rows)%Z -> (col - 1 < num_cols)%Z ->
   get_range_data_from_pandas U df token
   = ([], inr (PCell (cell df (Z.to_nat (row - 1)) (Z.to_nat (col - 1)))))).
Proof.
  intros Htok Hrow token row col num_rows num_cols.
  pose proof (single_cell_resolution U df _ _ Htok) as E.
  fold token row col num_rows num_cols in E.
  assert (Hcol : (1 <= col)%Z).
  { apply is_cell_token_parts in Htok as [[Hl _] [Hal _]].
    apply column_of_positive; [|exact Hal].
    intro El. rewrite El in Hl. simpl in Hl. lia. }
  rewrite Z.gtb_ltb, Z.geb_leb in E.
  split; [|split; [|split]].
  - intros Hout. destruct (Z.ltb_spec num_rows row).
    + eexists. split; [|exact E]. reflexivity.
    + destruct (Z.leb_spec num_cols (col - 1)); [|lia].
      eexists. split; [|exact E]. reflexivity.
  - intro Hgt. destruct (Z.ltb_spec num_rows row); [exact E | lia].
  - intros Hle Hge. destruct (Z.ltb_spec num_rows row); [lia|].
    destruct (Z.leb_spec num_cols (col - 1)); [exact E | lia].
  - intros Hle Hlt. destruct (Z.ltb_spec num_rows row); [lia|].
    destruct (Z.leb_spec num_cols (col - 1)); [lia|].
    rewrite E, iloc_in_bounds by (unfold num_rows, num_cols in *; lia).
    reflexivity.
Qed.

(** The token [B2] against a sheet of two rows and two columns. *)
Lemma C4_single_cell_resolution_witness :
  let df := frame_of_rows 2 [[Number 1; Number 2]; [Number 3; Number 4]] in
  get_range_data_from_pandas ascii_only df (utf8 "B2") = ([], inr (PCell (Number 4))).
Proof.
  intro df.
  refine (proj2 (proj2 (proj2
            (@C4_single_cell_resolution ascii_only df (utf8 "B") (utf8 "2")
               _ _))) _ _).
  - reflexivity.
  - vm_compute. discriminate.
  - vm_compute. discriminate.
  - vm_compute. reflexivity.
Defined.

(** The token [AAAA9] against a sheet of two rows and two columns: its
    row exceeds the row count and its column the column count, yet no
    marker is returned and no warning printed: [AAAA] is not a column
    name, and the conversion of line 27 raises before the bounds are
    looked at.  The same with [A] followed by 4301 digits, which the
    interpreter refuses to read as a number. *)
Lemma C4_unknown_column_raises :
  let df := frame_of_rows 2 [[Number 1; Number 2]; [Number 3; Number 4]] in
  get_range_data_from_pandas ascii_only df (utf8 "AAAA9")
  = raise (InvalidColumnName (utf8 "AAAA"))
  /\ get_range_data_from_pandas ascii_only df (utf8 "A" ++ repeat 57%N 4301)
     = raise (InvalidLiteral (repeat 57%N 4301)).
Proof.
  split; vm_compute; reflexivity.
Qed.

(** C3 (as amended).  Range resolution with a row out of bounds.  For a
    range whose two endpoints are each made of one to three ASCII
    letters, then ASCII digits that the interpreter reads as a number,
    when the start row or the end row exceeds the sheet's row count the
    result is the empty list, with one warning and no exception. *)
Theorem C3_range_rows_out_of_bounds
        (U : Runtime) (df : DataFrame) (sl sd el ed : str) :
  is_cell_token U sl sd = true ->
  is_cell_token U el ed = true ->
  let num_rows := Z.of_nat (nrows df) in
  (row_of sd > num_rows \/ row_of ed > num_rows)%Z ->
  let cell_range := (sl ++ sd) ++ colon :: (el ++ ed) in
  get_range_data_from_pandas U df cell_range
  = ([WarnRangeRows cell_range num_rows], inr (PList []))
  /\ is_warning (WarnRangeRows cell_range num_rows) = true.
Proof.
  intros Hs He num_rows Hout cell_range. split; [|reflexivity].
  pose proof (range_resolution U df _ _ _ _ Hs He) as E. cbv zeta in E.
  fold cell_range num_rows in E. rewrite E.
  assert (G : ((row_of sd >? num_rows) || (row_of ed >? num_rows))%Z = true).
  { apply orb_true_iff. rewrite !Z.gtb_ltb.
    destruct Hout; [left | right]; apply Z.ltb_lt; lia. }
  rewrite G. reflexivity.
Qed.

(** The range [A1:B3] against a sheet of two rows: the end row is out. *)
Lemma C3_range_rows_out_of_bounds_witness :
  let df := frame_of_rows 2 [[Number 1; Number 2]; [Number 3; Number 4]] in
  get_range_data_from_pandas ascii_only df (utf8 "A1:B3")
  = ([WarnRangeRows (utf8 "A1:B3") 2], inr (PList [])).
Proof.
  intro df.
  refine (proj1 (@C3_range_rows_out_of_bounds ascii_only df
                   (utf8 "A") (utf8 "1") (utf8 "B") (utf8 "3") _ _ _)).
  - reflexivity.
  - reflexivity.
  - right. vm_compute. reflexivity.
Defined.

(** The range [AAAA1:B9] against a sheet of two rows: the end row is
    out, yet no empty list is returned and no warning printed: [AAAA] is
    not a column name, and the conversion of line 58 raises before the
    rows are compared with the row count.  The same with the end cell
    [B] followed by 4301 digits, which the interpreter refuses to read
    as a number. *)
Lemma C3_unknown_column_raises :
  let df := frame_of_rows 2 [[Number 1; Number 2]; [Number 3; Number 4]] in
  get_range_data_from_pandas ascii_only df (utf8 "AAAA1:B9")
  = raise (InvalidColumnName (utf8 "AAAA"))
  /\ get_range_data_from_pandas ascii_only df
                                (utf8 "A1:B" ++ repeat 57%N 4301)
     = raise (InvalidLiteral (repeat 57%N 4301)).
Proof.
  split; vm_compute; reflexivity.
Qed.

(** C7.  Coordinate parsing failure.  A token that is empty, or none of
    whose suffixes is a digit string, makes the resolution raise the
    coordinate error, without any output: as a single cell
    ([InvalidCellFormat]), as the start of a range ([InvalidStartCell]),
    and as the end of a range whose start was read ([InvalidEndCell]). *)
Theorem C7_invalid_coordinate (U : Runtime) (df : DataFrame) (token : str) :
  token = [] \/ (forall i, isdigit U (skipn i token) = false) ->
  ~ In colon token ->
  get_range_data_from_pandas U df token = raise (InvalidCellFormat token)
  /\ (forall end_cell,
         ~ In colon end_cell ->
         get_range_data_from_pandas U df (token ++ colon :: end_cell)
         = raise (InvalidStartCell token))
  /\ (forall start_cell start,
         ~ In colon start_cell ->
         scan_cell U (InvalidStartCell start_cell) start_cell = ret start ->
         get_range_data_from_pandas U df (start_cell ++ colon :: token)
         = raise (InvalidEndCell token))
  /\ is_invalid_coordinate (InvalidCellFormat token) = true
  /\ is_invalid_coordinate (InvalidStartCell token) = true
  /\ is_invalid_coordinate (InvalidEndCell token) = true.
Proof.
  intros Hbad Hnc.
  assert (Hno : forall i, isdigit U (skipn i token) = false).
  { destruct Hbad as [->|H]; [|exact H].
    intro i. rewrite skipn_nil. reflexivity. }
  split; [|split; [|split; [|repeat split]]].
  - unfold get_range_data_from_pandas.
    apply contains_not_In in Hnc. rewrite Hnc. cbn [negb].
    rewrite scan_cell_no_digit_suffix by exact Hno. reflexivity.
  - intros end_cell Hend. unfold get_range_data_from_pandas.
    rewrite contains_app_sep. cbn [negb].
    rewrite split_app_sep by exact Hnc. rewrite split_no_sep by exact Hend.
    rewrite scan_cell_no_digit_suffix by exact Hno. reflexivity.
  - intros start_cell [c r] Hstart Hscan. unfold get_range_data_from_pandas.
    rewrite contains_app_sep. cbn [negb].
    rewrite split_app_sep by exact Hstart. rewrite split_no_sep by exact Hnc.
    rewrite Hscan, bind_ret_l.
    rewrite scan_cell_no_digit_suffix by exact Hno. reflexivity.
Qed.

(** The all-letter token [ABC] as a single cell. *)
Lemma C7_invalid_coordinate_witness :
  let df := frame_of_rows 2 [[Number 1; Number 2]; [Number 3; Number 4]] in
  get_range_data_from_pandas ascii_only df (utf8 "ABC")
  = raise (InvalidCellFormat (utf8 "ABC")).
Proof.
  intro df.
  refine (proj1 (@C7_invalid_coordinate ascii_only df (utf8 "ABC") _ _)).
  - right. intros [|[|[|[|i]]]]; reflexivity.
  - vm_compute. intuition discriminate.
Defined.

(** C2.  Range resolution with the columns out of bounds pads each row
    with one marker per column between the sheet's last column and the
    range's end column, counted from the sheet's edge (line 74).  For
    the range [D1:E1] against a sheet of two columns that is three
    markers, where the range has one row of two columns. *)
Theorem C2_range_padding_from_sheet_edge (U : Runtime) :
  let df := frame_of_rows 2 [[Number 1; Number 2]; [Number 3; Number 4]] in
  let start_row := 1%Z in let end_row := 1%Z in
  let start_col := 4%Z in let end_col := 5%Z in
  get_range_data_from_pandas U df (utf8 "D1:E1")
  = ([WarnRangeColumns (utf8 "D1:E1") 2], inr (PList [None; None; None]))
  /\ Z.of_nat (length [@None Scalar; None; None])
     <> ((end_row - start_row + 1) * (end_col - start_col + 1))%Z.
Proof.
  split.
  - vm_compute. reflexivity.
  - vm_compute. discriminate.
Qed.

(** ** Records *)

Lemma str_in_In (s : str) (l : list str) : str_in s l = true <-> In s l.
Proof.
  unfold str_in. rewrite existsb_exists. split.
  - intros [x [Hx E]]. apply str_eqb_eq in E. subst. exact Hx.
  - intro H. exists s. split; [exact H | apply str_eqb_refl].
Qed.

Lemma dict_get_set_same (d : dict) (k : str) (v : PyVal) :
  dict_get (dict_set d k v) k = Some v.
Proof.
  induction d as [|[k' v'] d IH]; simpl.
  - rewrite str_eqb_refl. reflexivity.
  - destruct (str_eqb k' k) eqn:E; simpl; rewrite E; [reflexivity | exact IH].
Qed.

Lemma dict_get_set_other (d : dict) (k k0 : str) (v : PyVal) :
  k0 <> k -> dict_get (dict_set d k v) k0 = dict_get d k0.
Proof.
  intro Hne. induction d as [|[k' v'] d IH]; simpl.
  - apply str_eqb_neq in Hne.
    destruct (str_eqb k k0) eqn:E; [|reflexivity].
    apply str_eqb_eq in E. subst. rewrite str_eqb_refl in Hne. discriminate.
  - destruct (str_eqb k' k) eqn:E; simpl.
    + apply str_eqb_eq in E. subst k'.
      destruct (str_eqb k k0) eqn:E0; [|reflexivity].
      apply str_eqb_eq in E0. congruence.
    + rewrite IH. reflexivity.
Qed.

Lemma dict_keys_set (d : dict) (k : str) (v : PyVal) :
  dict_keys (dict_set d k v)
  = if str_in k (dict_keys d) then dict_keys d else dict_keys d ++ [k].
Proof.
  unfold dict_keys, str_in. induction d as [|[k' v'] d IH]; simpl; [reflexivity|].
  destruct (str_eqb k' k) eqn:E.
  - apply str_eqb_eq in E. subst. rewrite str_eqb_refl. reflexivity.
  - assert (E' : str_eqb k k' = false).
    { apply str_eqb_neq. apply str_eqb_neq in E. congruence. }
    rewrite E'. simpl. rewrite IH.
    destruct (existsb (str_eqb k) (map fst d)); reflexivity.
Qed.

Lemma dict_keys_set_In (d : dict) (k k0 : str) (v : PyVal) :
  In k0 (dict_keys (dict_set d k v)) <-> In k0 (dict_keys d) \/ k0 = k.
Proof.
  rewrite dict_keys_set. destruct (str_in k (dict_keys d)) eqn:E.
  - apply str_in_In in E. split; [auto|]. intros [H| ->]; assumption.
  - rewrite in_app_iff. simpl. intuition.
Qed.

Lemma dict_keys_set_NoDup (d : dict) (k : str) (v : PyVal) :
  NoDup (dict_keys d) -> NoDup (dict_keys (dict_set d k v)).
Proof.
  intro H. rewrite dict_keys_set. destruct (str_in k (dict_keys d)) eqn:E.
  - exact H.
  - apply NoDup_app; [exact H | repeat constructor; intros [] |].
    intros x Hx [<-|[]].
    apply str_in_In in Hx. congruence.
Qed.

Section RecordFacts.
Variable U : Runtime.
Variable P : OsPath.

Lemma filled_app (df : DataFrame) (pre post : list (str * str)) (d : dict) :
  filled U df (pre ++ post) d = filled U df post (filled U df pre d).
Proof. unfold filled. apply fold_left_app. Qed.

Lemma filled_cons (df : DataFrame) (spec : str * str) (post : list (str * str))
      (d : dict) :
  filled U df (spec :: post) d
  = filled U df post (dict_set d (snd spec) (field_value U df (fst spec))).
Proof. reflexivity. Qed.

(** A key no spec names keeps its binding. *)
Lemma filled_get_untouched (df : DataFrame) (specs : list (str * str))
      (d : dict) (k : str) :
  ~ In k (map snd specs) -> dict_get (filled U df specs d) k = dict_get d k.
Proof.
  revert d. induction specs as [|[cr h] specs IH]; intros d Hk; [reflexivity|].
  rewrite filled_cons, IH.
  - apply dict_get_set_other. intro E. apply Hk. left. simpl. symmetry. exact E.
  - intro Hin. apply Hk. right. exact Hin.
Qed.

(** The last spec naming a key decides its binding. *)
Lemma filled_get_last (df : DataFrame) (pre post : list (str * str))
      (cell_range column_header : str) (d : dict) :
  ~ In column_header (map snd post) ->
  dict_get (filled U df (pre ++ (cell_range, column_header) :: post) d)
           column_header
  = Some (field_value U df cell_range).
Proof.
  intro H. rewrite filled_app, filled_cons, filled_get_untouched by exact H.
  apply dict_get_set_same.
Qed.

Lemma filled_keys (df : DataFrame) (specs : list (str * str)) (d : dict) (k : str) :
  In k (dict_keys (filled U df specs d))
  <-> In k (dict_keys d) \/ In k (map snd specs).
Proof.
  revert d. induction specs as [|[cr h] specs IH]; intro d.
  - simpl. intuition.
  - rewrite filled_cons, IH, dict_keys_set_In. simpl. intuition.
Qed.

Lemma filled_NoDup (df : DataFrame) (specs : list (str * str)) (d : dict) :
  NoDup (dict_keys d) -> NoDup (dict_keys (filled U df specs d)).
Proof.
  revert d. induction specs as [|[cr h] specs IH]; intros d H; [exact H|].
  rewrite filled_cons. apply IH. apply dict_keys_set_NoDup. exact H.
Qed.

Lemma new_rowdict_NoDup (sheet_name input_path : str) :
  NoDup (dict_keys (new_rowdict P sheet_name input_path)).
Proof.
  simpl. repeat constructor; simpl; [|intros []].
  intros [E|[]]. vm_compute in E. discriminate.
Qed.

(** One turn of the loop over the specs: the error, if any, is reported
    and the field is set, to the value or to the missing marker. *)
Lemma extract_field_eq (report : str -> Exn -> Event) (df : DataFrame)
      (cell_range column_header : str) (d : dict) :
  extract_field U report df (cell_range, column_header) d
  = (field_events U report df cell_range,
     inr (dict_set d column_header (field_value U df cell_range))).
Proof.
  unfold extract_field, field_events, field_value, outcome, events.
  destruct (get_range_data_from_pandas U df cell_range) as [out [e|val]];
    simpl; [reflexivity|].
  rewrite !app_nil_r. reflexivity.
Qed.

Lemma extract_fields_cons (report : str -> Exn -> Event) (df : DataFrame)
      (cell_range column_header : str) (post : list (str * str)) (d : dict) :
  extract_fields U report df ((cell_range, column_header) :: post) d
  = let rest := extract_fields U report df post
                  (dict_set d column_header (field_value U df cell_range)) in
    (field_events U report df cell_range ++ events rest, outcome rest).
Proof.
  unfold extract_fields. cbn [for_in]. rewrite extract_field_eq.
  unfold bind, events, outcome.
  destruct (for_in post (extract_field U report df)
                   (dict_set d column_header (field_value U df cell_range))).
  reflexivity.
Qed.

(** The loop over the specs always returns, with the record [filled]. *)
Lemma extract_fields_eq (report : str -> Exn -> Event) (df : DataFrame)
      (specs : list (str * str)) (d : dict) :
  extract_fields U report df specs d
  = (flat_map (fun spec => field_events U report df (fst spec)) specs,
     inr (filled U df specs d)).
Proof.
  revert d. induction specs as [|[cr h] specs IH]; intro d; [reflexivity|].
  rewrite extract_fields_cons, IH. reflexivity.
Qed.
End RecordFacts.

(** ** Traces *)

Lemma events_bind {A B} (m : Run A) (k : A -> Run B) :
  events (bind m k)
  = events m ++ match outcome m with
                | inr a => events (k a)
                | inl _ => []
                end.
Proof.
  destruct m as [out [e|a]]; simpl.
  - rewrite app_nil_r. reflexivity.
  - destruct (k a). reflexivity.
Qed.

Lemma outcome_bind {A B} (m : Run A) (k : A -> Run B) :
  outcome (bind m k)
  = match outcome m with
    | inr a => outcome (k a)
    | inl e => inl e
    end.
Proof.
  destruct m as [out [e|a]]; simpl; [reflexivity|].
  destruct (k a). reflexivity.
Qed.

Lemma run_eta {A} (m : Run A) : m = (events m, outcome m).
Proof. destruct m. reflexivity. Qed.

Lemma run_let_eta {A} (m : Run A) : (let (out, r) := m in (out, r)) = m.
Proof. destruct m. reflexivity. Qed.

Lemma written_app (t1 t2 : list Event) :
  written (t1 ++ t2) = written t1 ++ written t2.
Proof.
  induction t1 as [|ev t1 IH]; [reflexivity|].
  destruct ev; simpl; rewrite IH; reflexivity.
Qed.

Lemma written_flat_map {A} (f : A -> list Event) (l : list A) :
  written (flat_map f l) = flat_map (fun a => written (f a)) l.
Proof.
  induction l as [|a l IH]; [reflexivity|].
  simpl. rewrite written_app, IH. reflexivity.
Qed.

Lemma flat_map_nil {A B} (f : A -> list B) (l : list A) :
  (forall a, f a = []) -> flat_map f l = [].
Proof.
  intro H. induction l as [|a l IH]; [reflexivity|].
  simpl. rewrite H, IH. reflexivity.
Qed.

Lemma warnings_not_written (t : list Event) :
  forallb is_warning t = true -> written t = [].
Proof.
  induction t as [|ev t IH]; [reflexivity|]. simpl. intro H.
  apply andb_true_iff in H as [Hev Ht].
  destruct ev; try discriminate; apply IH; exact Ht.
Qed.

(** A loop whose body causes no event causes none. *)
Lemma for_in_silent {A S} (xs : list A) (body : A -> S -> Run S) (s : S) :
  (forall x s, events (body x s) = []) -> events (for_in xs body s) = [].
Proof.
  intro H. revert s. induction xs as [|x xs IH]; intro s; [reflexivity|].
  cbn [for_in]. rewrite events_bind, H. simpl.
  destruct (outcome (body x s)); [reflexivity | apply IH].
Qed.

Section TraceFacts.
Variable U : Runtime.

Lemma scan_cell_silent (failure : Exn) (token : str) :
  events (scan_cell U failure token) = [].
Proof.
  unfold scan_cell. destruct (first_digit_suffix U token _); [|reflexivity].
  destruct (int U (skipn n token)); reflexivity.
Qed.

Lemma collect_range_silent (df : DataFrame) (r1 r2 c1 c2 : Z) :
  events (collect_range df r1 r2 c1 c2) = [].
Proof.
  unfold collect_range. apply for_in_silent. intros row_idx values.
  rewrite events_bind, for_in_silent.
  - simpl. destruct (outcome _); [reflexivity|].
    destruct (c2 >=? _)%Z; reflexivity.
  - intros col_idx vs. destruct (iloc df row_idx col_idx); reflexivity.
Qed.

(** The resolver prints warnings and nothing else. *)
Lemma resolver_warnings_only (df : DataFrame) (cell_range : str) :
  forallb is_warning (events (get_range_data_from_pandas U df cell_range)) = true.
Proof.
  unfold get_range_data_from_pandas.
  destruct (negb (contains colon cell_range)).
  - rewrite events_bind, scan_cell_silent. simpl.
    destruct (outcome (scan_cell U _ cell_range)) as [e|[col_str row]];
      [reflexivity|].
    cbv beta iota.
    destruct (column_index_from_string U col_str) as [e|col]; [reflexivity|].
    destruct (row >? _)%Z; [reflexivity|].
    destruct (col - 1 >=? _)%Z; [reflexivity|].
    destruct (iloc df (row - 1) (col - 1)); reflexivity.
  - destruct (split colon cell_range) as [|start_cell [|end_cell [|x l]]];
      try reflexivity.
    rewrite events_bind, scan_cell_silent. simpl.
    destruct (outcome (scan_cell U _ start_cell)) as [e|[start_col_str start_row]];
      [reflexivity|].
    cbv beta iota.
    rewrite events_bind, scan_cell_silent. simpl.
    destruct (outcome (scan_cell U _ end_cell)) as [e|[end_col_str end_row]];
      [reflexivity|].
    cbv beta iota.
    destruct (column_index_from_string U start_col_str) as [e|start_col];
      [reflexivity|].
    destruct (column_index_from_string U end_col_str) as [e|end_col];
      [reflexivity|].
    destruct (_ || _)%bool; [reflexivity|].
    rewrite !run_let_eta.
    rewrite events_bind, forallb_app. apply andb_true_iff. split.
    + destruct (end_col - 1 >=? _)%Z; reflexivity.
    + destruct (outcome _); [reflexivity|].
      rewrite events_bind, collect_range_silent. simpl.
      destruct (outcome _); reflexivity.
Qed.

Lemma written_field_events (report : str -> Exn -> Event) (df : DataFrame)
      (cell_range : str) :
  (forall c e, written [report c e] = []) ->
  written (field_events U report df cell_range) = [].
Proof.
  intro H. unfold field_events.
  rewrite written_app, (warnings_not_written _ (resolver_warnings_only df cell_range)).
  destruct (outcome _); [apply H | reflexivity].
Qed.

Lemma written_sheet_events failed report done
      (specs : list (str * str)) (sheet : str * (Exn + DataFrame)) :
  (forall n e, written [failed n e] = []) ->
  (forall n c e, written [report n c e] = []) ->
  (forall n, written (done n) = []) ->
  written (sheet_events U failed report done specs sheet) = [].
Proof.
  intros Hf Hr Hd. unfold sheet_events. destruct (snd sheet); [apply Hf|].
  rewrite written_app, Hd, written_flat_map, flat_map_nil; [reflexivity|].
  intro spec. apply written_field_events. apply Hr.
Qed.

Lemma written_printed_sheet_events specs sheet :
  written (printed_sheet_events U specs sheet) = [].
Proof. apply written_sheet_events; reflexivity. Qed.

End TraceFacts.

(** ** The loops over the sheets *)

Section SheetFacts.
Variable U : Runtime.
Variable P : OsPath.

Lemma read_sheet_eq (path : str) (specs : list (str * str))
      (sheet : str * (Exn + DataFrame)) (results : list dict) :
  read_sheet U P path specs sheet results
  = (printed_sheet_events U specs sheet,
     inr (results ++ records_of U P path specs [sheet])).
Proof.
  destruct sheet as [sheet_name [e|df]];
    unfold read_sheet, printed_sheet_events, sheet_events, records_of; simpl.
  - rewrite app_nil_r. reflexivity.
  - rewrite extract_fields_eq. simpl. rewrite ?app_nil_r. reflexivity.
Qed.

Lemma merge_sheet_eq (path : str) (specs : list (str * str))
      (sheet : str * (Exn + DataFrame)) (all_results : list dict) :
  merge_sheet U P path specs sheet all_results
  = (logged_sheet_events U specs sheet,
     inr (all_results ++ records_of U P path specs [sheet])).
Proof.
  destruct sheet as [sheet_name [e|df]];
    unfold merge_sheet, logged_sheet_events, sheet_events, records_of; simpl.
  - rewrite app_nil_r. reflexivity.
  - rewrite extract_fields_eq. simpl. rewrite ?app_nil_r. reflexivity.
Qed.

Lemma records_of_cons path specs sheet (excel_file : Workbook) :
  records_of U P path specs (sheet :: excel_file)
  = records_of U P path specs [sheet] ++ records_of U P path specs excel_file.
Proof. unfold records_of. simpl. rewrite app_nil_r. reflexivity. Qed.

(** A loop over sheets whose every turn returns, appending that sheet's
    records, returns with the records of all the sheets appended. *)
Lemma sheets_loop_eq (path : str) (specs : list (str * str))
      (step : str * (Exn + DataFrame) -> list dict -> Run (list dict))
      (step_events : str * (Exn + DataFrame) -> list Event) :
  (forall sheet acc,
      step sheet acc
      = (step_events sheet, inr (acc ++ records_of U P path specs [sheet]))) ->
  forall (excel_file : Workbook) (acc : list dict),
    for_in excel_file step acc
    = (flat_map step_events excel_file,
       inr (acc ++ records_of U P path specs excel_file)).
Proof.
  intros Hstep excel_file.
  induction excel_file as [|sheet rest IH]; intro acc.
  - simpl. unfold records_of. simpl. rewrite app_nil_r. reflexivity.
  - cbn [for_in]. rewrite Hstep. unfold bind. rewrite IH.
    rewrite (records_of_cons _ _ sheet rest), app_assoc. reflexivity.
Qed.

(** The loop over the sheets always returns: one record for each sheet
    that could be read. *)
Lemma read_sheets_eq (path : str) (specs : list (str * str))
      (excel_file : Workbook) :
  read_sheets U P path specs excel_file
  = (flat_map (printed_sheet_events U specs) excel_file,
     inr (records_of U P path specs excel_file)).
Proof.
  unfold read_sheets.
  rewrite (sheets_loop_eq path specs _ (printed_sheet_events U specs)
                          (read_sheet_eq path specs)).
  reflexivity.
Qed.

Lemma merge_sheets_eq (path : str) (specs : list (str * str))
      (excel_file : Workbook) (all_results : list dict) :
  for_in excel_file (merge_sheet U P path specs) all_results
  = (flat_map (logged_sheet_events U specs) excel_file,
     inr (all_results ++ records_of U P path specs excel_file)).
Proof.
  apply (sheets_loop_eq path specs _ (logged_sheet_events U specs)
                        (merge_sheet_eq path specs)).
Qed.

Lemma sheet_record_keys (path : str) (specs : list (str * str))
      (sheet_name : str) (df : DataFrame) (k : str) :
  In k (dict_keys (sheet_record U P path specs sheet_name df))
  <-> k = key_sheet \/ k = key_source_file \/ In k (map snd specs).
Proof.
  unfold sheet_record. rewrite filled_keys. simpl. intuition.
Qed.
End SheetFacts.

(** ** The worksheet extractor *)

Lemma extract_fields_app (U : Runtime) (report : str -> Exn -> Event)
      (df : DataFrame) (pre post : list (str * str)) (d : dict) :
  extract_fields U report df (pre ++ post) d
  = (events (extract_fields U report df pre d)
     ++ events (extract_fields U report df post (filled U df pre d)),
     outcome (extract_fields U report df post (filled U df pre d))).
Proof.
  rewrite !extract_fields_eq. simpl. rewrite flat_map_app, filled_app.
  reflexivity.
Qed.

Lemma records_of_length (U : Runtime) (P : OsPath) (path : str)
      (specs : list (str * str)) (excel_file : Workbook) :
  length (records_of U P path specs excel_file)
  = length (filter (fun sheet => match snd sheet with
                                 | inr _ => true
                                 | inl _ => false
                                 end) excel_file).
Proof.
  induction excel_file as [|[n [e|df]] rest IH]; [reflexivity| |].
  - rewrite records_of_cons. simpl. exact IH.
  - rewrite records_of_cons. simpl. rewrite IH. reflexivity.
Qed.

(** C5 (as amended).  Worksheet extraction totality.  For every spec list
    (the empty one included) both loops over the sheets return with exactly
    one record for each worksheet that could be read, in order, and none for
    a worksheet that could not.  The record of a worksheet always has the
    keys [sheet] and [source_file], whatever the resolution of the specs
    gave; [sheet] holds the worksheet's name if no spec has the field name
    [sheet], and [source_file] the base name of the source file if no spec
    has the field name [source_file].  With no spec the record holds these
    two bindings only. *)
Theorem C5_one_record_per_worksheet
        (U : Runtime) (P : OsPath) (path : str) (position_args : list str) :
  let specs := parse_position_args U position_args in
  (forall excel_file,
      outcome (read_sheets U P path specs excel_file)
      = inr (records_of U P path specs excel_file)
      /\ (forall all_results,
             outcome (for_in excel_file (merge_sheet U P path specs) all_results)
             = inr (all_results ++ records_of U P path specs excel_file))
      /\ length (records_of U P path specs excel_file)
         = length (filter (fun sheet => match snd sheet with
                                        | inr _ => true
                                        | inl _ => false
                                        end) excel_file)) /\
  (forall sheet_name df,
      records_of U P path specs [(sheet_name, inr df)]
      = [sheet_record U P path specs sheet_name df]) /\
  (forall sheet_name df,
      let record := sheet_record U P path specs sheet_name df in
      In key_sheet (dict_keys record) /\
      In key_source_file (dict_keys record) /\
      (~ In key_sheet (map snd specs) ->
       dict_get record key_sheet = Some (PStr sheet_name)) /\
      (~ In key_source_file (map snd specs) ->
       dict_get record key_source_file = Some (PStr (basename P path))) /\
      (position_args = [] ->
       record = [(key_sheet, PStr sheet_name);
                 (key_source_file, PStr (basename P path))])).
Proof.
  intro specs. split; [|split].
  - intro excel_file. split; [|split].
    + rewrite read_sheets_eq. reflexivity.
    + intro all_results. rewrite merge_sheets_eq. reflexivity.
    + apply records_of_length.
  - reflexivity.
  - intros sheet_name df record. split; [|split; [|split; [|split]]].
    + apply sheet_record_keys. left. reflexivity.
    + apply sheet_record_keys. right. left. reflexivity.
    + intro H. unfold record, sheet_record.
      rewrite filled_get_untouched by exact H. reflexivity.
    + intro H. unfold record, sheet_record.
      rewrite filled_get_untouched by exact H. reflexivity.
    + intro E. unfold record, specs. rewrite E. reflexivity.
Qed.

(** A sheet [S1] of the workbook [/data/book.xlsx] with the spec
    [A1-label]: the record keeps the sheet's name under [sheet]. *)
Lemma C5_one_record_per_worksheet_witness :
  let df := frame_of_rows 1 [[Number 7]] in
  dict_get (sheet_record ascii_only Posix.os_path (utf8 "/data/book.xlsx")
                         (parse_position_args ascii_only [utf8 "A1-label"])
                         (utf8 "S1") df)
           key_sheet
  = Some (PStr (utf8 "S1")).
Proof.
  intro df.
  refine (proj1 (proj2 (proj2 (proj2 (proj2
            (@C5_one_record_per_worksheet ascii_only Posix.os_path
               (utf8 "/data/book.xlsx") [utf8 "A1-label"])) (utf8 "S1") df))) _).
  vm_compute. intuition discriminate.
Defined.

(** The same sheet with the spec [A1-sheet]: the one record holds the
    value of cell A1 under [sheet], not the worksheet's name. *)
Lemma C5_reserved_key_overwritten :
  let df := frame_of_rows 1 [[Number 7]] in
  let specs := parse_position_args ascii_only [utf8 "A1-sheet"] in
  let record := [(key_sheet, PCell (Number 7));
                 (key_source_file, PStr (utf8 "book.xlsx"))] in
  outcome (read_sheets ascii_only Posix.os_path (utf8 "/data/book.xlsx") specs
                       [(utf8 "S1", inr df)])
  = inr [record]
  /\ dict_get record key_sheet <> Some (PStr (utf8 "S1")).
Proof.
  split.
  - vm_compute. reflexivity.
  - vm_compute. discriminate.
Qed.

(** C6.  Per-spec failure containment.  When resolving a spec raises,
    that turn of the loop reports the error and sets the spec's field to
    the missing marker; the loop goes on with the specs after it from that
    record and returns; the field still holds the missing marker at the
    end unless a later spec has the same field name; and both loops over
    the sheets return with one record per readable worksheet. *)
Theorem C6_spec_failure_contained
        (U : Runtime) (report : str -> Exn -> Event) (df : DataFrame)
        (pre post : list (str * str)) (cell_range column_header : str)
        (rowdict : dict) (e : Exn) :
  outcome (get_range_data_from_pandas U df cell_range) = inl e ->
  let specs := pre ++ (cell_range, column_header) :: post in
  let before := filled U df pre rowdict in
  let marked := dict_set before column_header PNone in
  let resumed := extract_fields U report df post marked in
  outcome (extract_fields U report df pre rowdict) = inr before /\
  extract_field U report df (cell_range, column_header) before
  = (events (get_range_data_from_pandas U df cell_range)
     ++ [report cell_range e], inr marked) /\
  extract_fields U report df specs rowdict
  = (events (extract_fields U report df pre rowdict)
     ++ (events (get_range_data_from_pandas U df cell_range)
         ++ [report cell_range e])
     ++ events resumed,
     outcome resumed) /\
  (exists final,
      outcome resumed = inr final /\
      (~ In column_header (map snd post) ->
       dict_get final column_header = Some PNone)) /\
  (forall P path excel_file,
      outcome (read_sheets U P path specs excel_file)
      = inr (records_of U P path specs excel_file) /\
      forall all_results,
        outcome (for_in excel_file (merge_sheet U P path specs) all_results)
        = inr (all_results ++ records_of U P path specs excel_file)).
Proof.
  intros He specs before marked resumed.
  assert (Hv : field_value U df cell_range = PNone).
  { unfold field_value. rewrite He. reflexivity. }
  assert (Hev : field_events U report df cell_range
                = events (get_range_data_from_pandas U df cell_range)
                  ++ [report cell_range e]).
  { unfold field_events. rewrite He. reflexivity. }
  split; [|split; [|split; [|split]]].
  - rewrite extract_fields_eq. reflexivity.
  - rewrite extract_field_eq, Hv, Hev. reflexivity.
  - unfold specs. rewrite extract_fields_app. fold before.
    rewrite extract_fields_cons, Hv, Hev. cbv zeta. fold marked resumed.
    unfold events at 2. unfold outcome at 1. simpl. reflexivity.
  - exists (filled U df post marked). split.
    + unfold resumed. rewrite extract_fields_eq. reflexivity.
    + intro H. rewrite filled_get_untouched by exact H.
      apply dict_get_set_same.
  - intros P path excel_file. split.
    + rewrite read_sheets_eq. reflexivity.
    + intro all_results. rewrite merge_sheets_eq. reflexivity.
Qed.

(** The specs [A1-first], [ABC-second], [B1-third] on a sheet of one
    row: the malformed second one leaves the missing marker, the third
    one is still extracted. *)
Lemma C6_spec_failure_contained_witness :
  let df := frame_of_rows 2 [[Number 1; Number 2]] in
  let report := fun cell_range e => LogExtractFailed cell_range e in
  extract_fields ascii_only report df
    ([(utf8 "A1", utf8 "first")]
     ++ (utf8 "ABC", utf8 "second") :: [(utf8 "B1", utf8 "third")]) []
  = ([report (utf8 "ABC") (InvalidCellFormat (utf8 "ABC"))],
     inr [(utf8 "first", PCell (Number 1));
          (utf8 "second", PNone);
          (utf8 "third", PCell (Number 2))]).
Proof.
  intros df report.
  refine (eq_trans
            (proj1 (proj2 (proj2
               (@C6_spec_failure_contained ascii_only report df
                  [(utf8 "A1", utf8 "first")] [(utf8 "B1", utf8 "third")]
                  (utf8 "ABC") (utf8 "second") []
                  (InvalidCellFormat (utf8 "ABC")) _)))) _).
  - vm_compute. reflexivity.
  - vm_compute. reflexivity.
Defined.

(** C10.  Duplicate field names.  When no line after a given line parses
    to that line's field name, the worksheet's record binds the field name
    once, to what that line's expression resolved to (the missing marker
    if it raised): earlier lines with the same field name are overwritten. *)
Theorem C10_last_duplicate_wins
        (U : Runtime) (P : OsPath) (report : str -> Exn -> Event)
        (df : DataFrame) (sheet_name path : str)
        (earlier later : list str) (line : str) :
  let cell_range := fst (parse_position_arg U line) in
  let column_header := snd (parse_position_arg U line) in
  (forall l, In l later -> snd (parse_position_arg U l) <> column_header) ->
  let specs := parse_position_args U (earlier ++ line :: later) in
  exists record,
    outcome (extract_fields U report df specs (new_rowdict P sheet_name path))
    = inr record /\
    record = sheet_record U P path specs sheet_name df /\
    dict_get record column_header = Some (field_value U df cell_range) /\
    NoDup (dict_keys record) /\
    count_occ (list_eq_dec N.eq_dec) (dict_keys record) column_header = 1.
Proof.
  intros cell_range column_header Hlater specs.
  exists (sheet_record U P path specs sheet_name df).
  assert (Hnd : NoDup (dict_keys (sheet_record U P path specs sheet_name df))).
  { apply filled_NoDup, new_rowdict_NoDup. }
  assert (Hspecs : specs
                   = map (parse_position_arg U) earlier
                     ++ (cell_range, column_header)
                     :: map (parse_position_arg U) later).
  { unfold specs. rewrite parse_position_args_map, map_app. simpl.
    unfold cell_range, column_header.
    rewrite <- surjective_pairing. reflexivity. }
  split; [|split; [|split; [|split]]].
  - rewrite extract_fields_eq. reflexivity.
  - reflexivity.
  - unfold sheet_record. rewrite Hspecs. apply filled_get_last.
    rewrite map_map. intro Hin. apply in_map_iff in Hin as [l [El Hl]].
    exact (Hlater l Hl El).
  - exact Hnd.
  - apply NoDup_count_occ'; [exact Hnd|].
    apply sheet_record_keys. right. right.
    rewrite Hspecs, map_app. apply in_or_app. right. left. reflexivity.
Qed.

(** The lines [A1-X] and [B1-X]: the record holds the value of B1. *)
Lemma C10_last_duplicate_wins_witness :
  let df := frame_of_rows 2 [[Number 1; Number 2]] in
  exists record,
    outcome (extract_fields ascii_only LogExtractFailed df
               (parse_position_args ascii_only [utf8 "A1-X"; utf8 "B1-X"])
               (new_rowdict Posix.os_path (utf8 "S1") (utf8 "/data/book.xlsx")))
    = inr record /\
    dict_get record (utf8 "X") = Some (PCell (Number 2)).
Proof.
  intro df.
  destruct (@C10_last_duplicate_wins ascii_only Posix.os_path LogExtractFailed
              df (utf8 "S1") (utf8 "/data/book.xlsx")
              [utf8 "A1-X"] [] (utf8 "B1-X"))
    as [record [Hout [_ [Hget _]]]].
  - intros l [].
  - exists record. split; [exact Hout | exact Hget].
Defined.

(** ** The output table *)

Lemma add_columns_In (keys columns : list str) (k : str) :
  In k (fold_left (fun columns k =>
                     if str_in k columns then columns else columns ++ [k])
                  keys columns)
  <-> In k columns \/ In k keys.
Proof.
  revert columns. induction keys as [|k0 keys IH]; intro columns.
  - simpl. intuition.
  - cbn [fold_left]. rewrite IH. destruct (str_in k0 columns) eqn:E.
    + apply str_in_In in E. simpl. intuition. subst. auto.
    + rewrite in_app_iff. simpl. intuition.
Qed.

Lemma frame_columns_In_from (results : list dict) (columns : list str) (k : str) :
  In k (fold_left
          (fun columns rowdict =>
             fold_left (fun columns k =>
                          if str_in k columns then columns else columns ++ [k])
                       (dict_keys rowdict) columns)
          results columns)
  <-> In k columns \/ exists r, In r results /\ In k (dict_keys r).
Proof.
  revert columns. induction results as [|r0 results IH]; intro columns.
  - simpl. split; [auto|]. intros [H|[r [[] _]]]. exact H.
  - cbn [fold_left]. rewrite IH, add_columns_In. split.
    + intros [[H|H]|[r [Hr Hk]]].
      * left. exact H.
      * right. exists r0. split; [left; reflexivity | exact H].
      * right. exists r. split; [right; exact Hr | exact Hk].
    + intros [H|[r [[<-|Hr] Hk]]].
      * left. left. exact H.
      * left. right. exact Hk.
      * right. exists r. split; assumption.
Qed.

(** A column of the frame is a key of some record. *)
Lemma frame_columns_In (results : list dict) (k : str) :
  In k (frame_columns results) <-> exists r, In r results /\ In k (dict_keys r).
Proof.
  unfold frame_columns. rewrite frame_columns_In_from. simpl. intuition.
Qed.

Lemma str_in_frame_columns (results : list dict) (col : str) :
  str_in col (frame_columns results)
  = existsb (fun r => str_in col (dict_keys r)) results.
Proof.
  apply eq_true_iff_eq. rewrite str_in_In, frame_columns_In, existsb_exists.
  split; intros [r [Hr Hk]]; exists r; split; try exact Hr; apply str_in_In;
    exact Hk.
Qed.

Lemma filter_all {A} (f : A -> bool) (l : list A) :
  (forall x, In x l -> f x = true) -> filter f l = l.
Proof.
  intro H. induction l as [|x l IH]; [reflexivity|].
  simpl. rewrite (H x) by (left; reflexivity).
  rewrite IH; [reflexivity|]. intros y Hy. apply H. right. exact Hy.
Qed.

(** The header keeps, in order, the columns some record has. *)
Lemma output_table_header (results : list dict) (specs : list (str * str)) :
  header (output_table results specs)
  = filter (fun col => existsb (fun r => str_in col (dict_keys r)) results)
           ([key_sheet; key_source_file] ++ map snd specs).
Proof.
  unfold output_table. cbn [header]. apply filter_ext.
  intro col. apply str_in_frame_columns.
Qed.

Lemma output_table_body (results : list dict) (specs : list (str * str)) :
  body (output_table results specs)
  = map (fun rowdict => map (shown rowdict) (header (output_table results specs)))
        results.
Proof. reflexivity. Qed.

(** ** The two output modes *)

Section ModeFacts.
Variable U : Runtime.
Variable P : OsPath.
Variable disk : Disk.

Lemma records_of_shape (path : str) (specs : list (str * str))
      (excel_file : Workbook) (r : dict) :
  In r (records_of U P path specs excel_file) ->
  exists sheet_name df, r = sheet_record U P path specs sheet_name df.
Proof.
  unfold records_of. rewrite in_flat_map. intros [[n [e|df]] [_ H]]; simpl in H.
  - contradiction.
  - destruct H as [<-|[]]. exists n, df. reflexivity.
Qed.

Lemma merged_records_shape (specs : list (str * str)) (input_files : list str)
      (r : dict) :
  In r (merged_records U P disk specs input_files) ->
  exists path sheet_name df, r = sheet_record U P path specs sheet_name df.
Proof.
  unfold merged_records, file_records. rewrite in_flat_map.
  intros [f [_ H]]. destruct (disk f) as [e|wb]; [contradiction|].
  exists f. apply (records_of_shape _ _ _ _ H).
Qed.

(** When every record comes from the spec list, no column is dropped. *)
Lemma full_header (results : list dict) (specs : list (str * str)) :
  results <> [] ->
  (forall r, In r results ->
             exists path sheet_name df,
               r = sheet_record U P path specs sheet_name df) ->
  header (output_table results specs)
  = [key_sheet; key_source_file] ++ map snd specs.
Proof.
  intros Hne Hshape. rewrite output_table_header. apply filter_all.
  intros col Hcol. destruct results as [|r rest]; [contradiction|].
  apply existsb_exists. exists r. split; [left; reflexivity|].
  destruct (Hshape r (or_introl eq_refl)) as [path [n [df ->]]].
  apply str_in_In, sheet_record_keys. simpl in Hcol. intuition.
Qed.




Variable to_excel : str -> Table -> option Exn.



(** The whole of the extraction of one file. *)
Lemma extract_excel_info_single_file_eq (input_file out_path : str)
      (parameters : list str) :
  let specs := parse_position_args U parameters in
  extract_excel_info_single_file U P disk to_excel input_file out_path parameters
  = match disk input_file with
    | inl cause => ([], inl (OpenFailed cause))
    | inr excel_file =>
        let records := records_of U P input_file specs excel_file in
        let table := output_table records specs in
        (flat_map (printed_sheet_events U specs) excel_file
         ++ match records with
            | [] => []
            | _ :: _ =>
                match to_excel out_path table with
                | None => [Wrote out_path table]
                | Some _ => []
                end
            end,
         match records with
         | [] => inl NoDataExtracted
         | _ :: _ => match to_excel out_path table with
                     | None => inr (Z.of_nat (length records))
                     | Some e => inl e
                     end
         end)
    end.
Proof.
  intro specs. unfold extract_excel_info_single_file. fold specs.
  destruct (disk input_file) as [cause|excel_file]; [reflexivity|].
  rewrite lift_inr. unfold try_except, ret. unfold bind at 1. cbn [app].
  rewrite read_sheets_eq. unfold bind, write_table. cbv zeta.
  destruct (records_of U P input_file specs excel_file) as [|r rest];
    [reflexivity|].
  destruct (to_excel out_path _); reflexivity.
Qed.

Lemma extract_file_eq (parameters : list str) (output_dir output_name : str)
      (input_file : str) (u : unit) :
  let output_file := derived_name P output_name input_file in
  let single := extract_excel_info_single_file
                  U P disk to_excel input_file
                  (path_join P output_dir output_file) parameters in
  extract_file U P disk to_excel parameters output_dir output_name input_file u
  = (LogProcessing (basename P input_file)
     :: events single
     ++ [match outcome single with
         | inr count => LogCount count output_file
         | inl e => LogError e
         end],
     inr tt).
Proof.
  intros output_file single. unfold extract_file. fold output_file single.
  destruct single as [out [e|count]]; reflexivity.
Qed.

Lemma extract_to_multiple_files_eq (input_files parameters : list str)
      (output_dir output_name : str) :
  extract_to_multiple_files U P disk to_excel input_files parameters
                            output_dir output_name
  = (flat_map
       (fun input_file =>
          let output_file := derived_name P output_name input_file in
          let single := extract_excel_info_single_file
                          U P disk to_excel input_file
                          (path_join P output_dir output_file) parameters in
          LogProcessing (basename P input_file)
          :: events single
          ++ [match outcome single with
              | inr count => LogCount count output_file
              | inl e => LogError e
              end])
       input_files,
     inr tt).
Proof.
  unfold extract_to_multiple_files. generalize tt.
  induction input_files as [|f rest IH]; intros []; [reflexivity|].
  cbn [for_in]. rewrite extract_file_eq. unfold bind. rewrite IH.
  reflexivity.
Qed.

Lemma written_single_file (input_file out_path : str) (parameters : list str) :
  let specs := parse_position_args U parameters in
  let records := file_records U P disk specs input_file in
  let table := output_table records specs in
  written (events (extract_excel_info_single_file
                     U P disk to_excel input_file out_path parameters))
  = match records with
    | [] => []
    | _ :: _ =>
        match to_excel out_path table with
        | None => [(out_path, table)]
        | Some _ => []
        end
    end.
Proof.
  intros specs records table. rewrite extract_excel_info_single_file_eq.
  unfold table, records, file_records. fold specs.
  destruct (disk input_file) as [cause|excel_file]; [reflexivity|].
  cbv zeta. unfold events. cbn [fst]. rewrite written_app, written_flat_map.
  rewrite flat_map_nil by (intro; apply written_printed_sheet_events).
  destruct (records_of U P input_file specs excel_file); [reflexivity|].
  destruct (to_excel out_path _); reflexivity.
Qed.

Lemma written_per_file_mode (input_files parameters : list str)
      (output_dir output_name : str) :
  let specs := parse_position_args U parameters in
  written (events (extract_to_multiple_files
                     U P disk to_excel input_files parameters
                     output_dir output_name))
  = flat_map (fun input_file =>
                let output_path :=
                  path_join P output_dir
                            (derived_name P output_name input_file) in
                let records := file_records U P disk specs input_file in
                match records with
                | [] => []
                | _ :: _ =>
                    match to_excel output_path (output_table records specs) with
                    | None => [(output_path, output_table records specs)]
                    | Some _ => []
                    end
                end)
             input_files.
Proof.
  intro specs. rewrite extract_to_multiple_files_eq.
  unfold events at 1. cbn [fst]. rewrite written_flat_map.
  apply flat_map_ext. intro f. cbn [written].
  rewrite written_app, written_single_file. fold specs. cbv zeta.
  destruct (outcome _); cbn [written]; rewrite app_nil_r; reflexivity.
Qed.
End ModeFacts.

Lemma output_after_app (w1 w2 : list (str * Table)) (path : str) :
  output_after (w1 ++ w2) path
  = match output_after w2 path with
    | Some table => Some table
    | None => output_after w1 path
    end.
Proof.
  induction w1 as [|[q t] w1 IH]; simpl.
  - destruct (output_after w2 path); reflexivity.
  - rewrite IH. destruct (output_after w2 path); reflexivity.
Qed.








(** ** Ranges that reach beyond the last column *)

Lemma py_range_In (a b c : Z) : In c (py_range a b) -> (a <= c < b)%Z.
Proof.
  unfold py_range. rewrite in_map_iff. intros [k [<- Hk]].
  apply in_seq in Hk. lia.
Qed.

Lemma py_range_length (a b : Z) : length (py_range a b) = Z.to_nat (b - a).
Proof. unfold py_range. rewrite length_map, length_seq. reflexivity. Qed.

(** A loop whose every turn appends [f x] appends them all. *)
Lemma for_in_appends {A B} (xs : list A) (f : A -> list B)
      (body : A -> list B -> Run (list B)) (acc : list B) :
  (forall x acc, In x xs -> body x acc = ret (acc ++ f x)) ->
  for_in xs body acc = ret (acc ++ flat_map f xs).
Proof.
  revert acc. induction xs as [|x xs IH]; intros acc H.
  - simpl. rewrite app_nil_r. reflexivity.
  - cbn [for_in]. rewrite H by (left; reflexivity). rewrite bind_ret_l.
    rewrite IH by (intros y a Hy; apply H; right; exact Hy).
    simpl. rewrite app_assoc. reflexivity.
Qed.

Lemma flat_map_singleton {A B} (g : A -> B) (l : list A) :
  flat_map (fun x => [g x]) l = map g l.
Proof.
  induction l as [|x l IH]; [reflexivity|]. simpl. rewrite IH. reflexivity.
Qed.

Lemma flat_map_length_const {A B} (f : A -> list B) (xs : list A) (n : nat) :
  (forall x, In x xs -> length (f x) = n) ->
  length (flat_map f xs) = length xs * n.
Proof.
  intro H. induction xs as [|x xs IH]; [reflexivity|].
  simpl. rewrite length_app, H by (left; reflexivity).
  rewrite IH by (intros y Hy; apply H; right; exact Hy). reflexivity.
Qed.

(** From row 1 and column A on, the two loops never leave the sheet and
    give the slices of the rows one after the other. *)
Lemma collect_range_slices (df : DataFrame)
      (start_row end_row start_col_idx end_col_idx : Z) :
  (1 <= start_row)%Z -> (0 <= start_col_idx)%Z ->
  collect_range df start_row end_row start_col_idx end_col_idx
  = ret (flat_map (row_slice df start_col_idx end_col_idx)
                  (py_range (start_row - 1)
                            (Z.min end_row (Z.of_nat (nrows df))))).
Proof.
  intros Hr Hc. unfold collect_range.
  rewrite (for_in_appends _ (row_slice df start_col_idx end_col_idx));
    [reflexivity|].
  intros row_idx values Hrow. apply py_range_In in Hrow.
  rewrite (for_in_appends
             _ (fun col_idx =>
                  [Some (cell df (Z.to_nat row_idx) (Z.to_nat col_idx))])).
  - rewrite bind_ret_l. unfold row_slice. rewrite flat_map_singleton.
    destruct (end_col_idx >=? Z.of_nat (ncols df))%Z.
    + rewrite app_assoc. reflexivity.
    + rewrite app_nil_r. reflexivity.
  - intros col_idx vs Hcol. apply py_range_In in Hcol.
    rewrite iloc_in_bounds by lia. rewrite lift_inr, bind_ret_l. reflexivity.
Qed.

(** Range resolution beyond the last column, where the padding is right:
    for a range of well-formed endpoints with rows
    1 <= start_row <= end_row <= row_count, whose start column is in the
    sheet or just after it and whose end column is beyond it, the result
    lists row after row the cells up to the sheet's last column followed
    by one marker for each column of the range beyond it, which makes
    (end_row-start_row+1) * (end_col-start_col+1) elements, after one
    warning. *)
Theorem range_beyond_columns_padded
        (U : Runtime) (df : DataFrame) (sl sd el ed : str) :
  is_cell_token U sl sd = true ->
  is_cell_token U el ed = true ->
  let num_rows := Z.of_nat (nrows df) in
  let num_cols := Z.of_nat (ncols df) in
  let start_row := row_of sd in
  let end_row := row_of ed in
  let start_col := column_of sl in
  let end_col := column_of el in
  (1 <= start_row <= end_row)%Z -> (end_row <= num_rows)%Z ->
  (start_col - 1 <= num_cols <= end_col - 1)%Z ->
  let cell_range := (sl ++ sd) ++ colon :: (el ++ ed) in
  let values :=
    flat_map (fun row_idx =>
                map (fun col_idx =>
                       Some (cell df (Z.to_nat row_idx) (Z.to_nat col_idx)))
                    (py_range (start_col - 1) num_cols)
                ++ repeat None (Z.to_nat (end_col - num_cols)))
             (py_range (start_row - 1) end_row) in
  get_range_data_from_pandas U df cell_range
  = ([WarnRangeColumns cell_range num_cols], inr (PList values))
  /\ Z.of_nat (length values)
     = ((end_row - start_row + 1) * (end_col - start_col + 1))%Z.
Proof.
  intros Hs He num_rows num_cols start_row end_row start_col end_col
         Hrows Hend Hcols cell_range values.
  assert (Hsc : (1 <= start_col)%Z).
  { apply is_cell_token_parts in Hs as [[Hl _] [Hal _]].
    apply column_of_positive; [|exact Hal].
    intro E. rewrite E in Hl. simpl in Hl. lia. }
  split.
  - pose proof (range_resolution U df _ _ _ _ Hs He) as E. cbv zeta in E.
    fold cell_range num_rows num_cols start_row end_row start_col end_col in E.
    rewrite E.
    assert (G1 : ((start_row >? num_rows) || (end_row >? num_rows))%Z = false).
    { apply orb_false_iff. rewrite !Z.gtb_ltb.
      split; apply Z.ltb_ge; lia. }
    assert (G2 : (end_col - 1 >=? num_cols)%Z = true).
    { rewrite Z.geb_leb. apply Z.leb_le. lia. }
    rewrite G1, G2, collect_range_slices by lia.
    rewrite bind_emit, bind_ret_l. unfold events, outcome, ret. cbn [fst snd].
    fold num_rows. rewrite Z.min_l by lia.
    f_equal. f_equal. f_equal. unfold values. apply flat_map_ext.
    intro row_idx. unfold row_slice. fold num_cols. rewrite G2.
    rewrite Z.min_r by lia. do 3 f_equal. lia.
  - unfold values.
    rewrite (@flat_map_length_const _ _ _ _
               (Z.to_nat (end_col - start_col + 1))).
    + rewrite py_range_length. nia.
    + intros row_idx _.
      rewrite length_app, length_map, py_range_length, repeat_length. lia.
Qed.

(** The range [A1:C2] against a sheet of two rows and two columns. *)
Lemma range_beyond_columns_padded_witness :
  let df := frame_of_rows 2 [[Number 1; Number 2]; [Number 3; Number 4]] in
  get_range_data_from_pandas ascii_only df (utf8 "A1:C2")
  = ([WarnRangeColumns (utf8 "A1:C2") 2],
     inr (PList [Some (Number 1); Some (Number 2); None;
                 Some (Number 3); Some (Number 4); None])).
Proof.
  intro df.
  refine (proj1 (@range_beyond_columns_padded ascii_only df
                   (utf8 "A") (utf8 "1") (utf8 "C") (utf8 "2") _ _ _ _ _)).
  - reflexivity.
  - reflexivity.
  - vm_compute. intuition discriminate.
  - vm_compute. discriminate.
  - vm_compute. intuition discriminate.
Defined.

(** ** Where a spec line is split *)

Lemma split_length (sep : char) (s : str) :
  In sep s -> 2 <= length (split sep s).
Proof.
  induction s as [|c r IH]; intro H; [contradiction|].
  simpl. destruct (char_eqb c sep) eqn:E.
  - pose proof (split_not_nil sep r). destruct (split sep r); [contradiction|].
    simpl. lia.
  - destruct H as [->|H]; [rewrite char_eqb_refl in E; discriminate|].
    specialize (IH H). destruct (split sep r); simpl in *; lia.
Qed.

Lemma split_parts_no_sep (sep : char) (s p : str) :
  In p (split sep s) -> ~ In sep p.
Proof.
  revert p. induction s as [|c r IH]; intros p H.
  - destruct H as [<-|[]]. intros [].
  - simpl in H. destruct (char_eqb c sep) eqn:E.
    + destruct H as [<-|H]; [intros [] | apply IH; exact H].
    + pose proof (split_not_nil sep r) as Hn.
      destruct (split sep r) as [|q qs]; [contradiction|].
      destruct H as [<-|H].
      * intros [->|Hq]; [rewrite char_eqb_refl in E; discriminate|].
        apply (IH q); [left; reflexivity | exact Hq].
      * apply IH. right. exact H.
Qed.

Lemma firstn_split {A} (l : list A) (j i : nat) :
  j <= i -> firstn i l = firstn j l ++ firstn (i - j) (skipn j l).
Proof.
  revert i l. induction j as [|j IH]; intros i l H.
  - rewrite Nat.sub_0_r. reflexivity.
  - destruct i as [|i]; [lia|]. destruct l as [|x l].
    + simpl. rewrite firstn_nil. reflexivity.
    + simpl. rewrite <- IH by lia. reflexivity.
Qed.

Lemma join_firstn_prefix (sep : char) (parts : list str) (j i : nat) :
  j <= i ->
  exists rest, join sep (firstn i parts) = join sep (firstn j parts) ++ rest.
Proof.
  intro Hji. rewrite (firstn_split parts Hji).
  destruct (firstn j parts) as [|p ps] eqn:E1.
  - exists (join sep (firstn (i - j) (skipn j parts))). reflexivity.
  - destruct (firstn (i - j) (skipn j parts)) as [|q qs] eqn:E2.
    + exists []. rewrite !app_nil_r. reflexivity.
    + exists (sep :: join sep (q :: qs)).
      apply join_app; discriminate.
Qed.

Lemma looks_like_cell_app (U : Runtime) (l r : str) :
  looks_like_cell U l = true -> looks_like_cell U (l ++ r) = true.
Proof.
  unfold looks_like_cell. intro H. apply andb_true_iff in H as [H1 H2].
  rewrite !existsb_app, H1, H2. reflexivity.
Qed.

Lemma split_last_part (sep : char) (l r : str) :
  ~ In sep r -> split sep (l ++ sep :: r) = split sep l ++ [r].
Proof.
  intro Hr. induction l as [|c l IH].
  - simpl. rewrite char_eqb_refl, split_no_sep by exact Hr. reflexivity.
  - simpl. rewrite IH. destruct (char_eqb c sep); [reflexivity|].
    pose proof (split_not_nil sep l) as Hn.
    destruct (split sep l); [contradiction | reflexivity].
Qed.

Lemma last_dash_exists (sep : char) (s : str) :
  In sep s -> exists l r, s = l ++ sep :: r /\ ~ In sep r.
Proof.
  induction s as [|c s IH]; intro H; [contradiction|].
  destruct (in_dec N.eq_dec sep s) as [Hin|Hnot].
  - destruct (IH Hin) as [l [r [-> Hr]]]. exists (c :: l), r.
    split; [reflexivity | exact Hr].
  - destruct H as [->|H]; [|contradiction].
    exists [], s. split; [reflexivity | exact Hnot].
Qed.

(** The dash at which a line is split is never inside the field name.  A
    line without a dash is kept whole, as the pair of itself.  A line
    with a dash is split at its last dash exactly when the text before
    the last dash has a digit and a letter, and is kept whole otherwise;
    and every line with a dash has a last dash. *)
Theorem parse_position_arg_splits_at_last_dash (U : Runtime) (arg : str) :
  (~ In dash arg -> parse_position_arg U arg = (arg, arg)) /\
  (forall left_part right_part : str,
      arg = left_part ++ dash :: right_part ->
      ~ In dash right_part ->
      parse_position_arg U arg
      = if looks_like_cell U left_part then (left_part, right_part)
        else (arg, arg)) /\
  (In dash arg ->
   exists left_part right_part : str,
     arg = left_part ++ dash :: right_part /\ ~ In dash right_part).
Proof.
  split; [|split].
  - intro H. unfold parse_position_arg.
    apply contains_not_In in H. rewrite H. reflexivity.
  - intros l r -> Hr. unfold parse_position_arg.
    rewrite contains_app_sep, split_last_part by exact Hr.
    pose proof (split_not_nil dash l) as Hn.
    rewrite length_app. cbn [length].
    replace (length (split dash l) + 1 - 1) with (length (split dash l))
      by lia.
    destruct (length (split dash l)) as [|n] eqn:En;
      [destruct (split dash l); [contradiction | discriminate]|].
    rewrite scan_splits_S. set (parts := split dash l ++ [r]).
    assert (Hf : firstn (S n) parts = split dash l).
    { subst parts. rewrite <- En, firstn_app, Nat.sub_diag, firstn_all.
      cbn [firstn]. apply app_nil_r. }
    assert (Hs : skipn (S n) parts = [r]).
    { subst parts. rewrite <- En, skipn_app, Nat.sub_diag, skipn_all.
      reflexivity. }
    rewrite Hf, Hs, join_split. cbn [join].
    destruct (looks_like_cell U l) eqn:Hl; [reflexivity|].
    rewrite scan_splits_none; [reflexivity|].
    intros j Hj.
    destruct (looks_like_cell U (join dash (firstn j parts)))
      eqn:Hlj; [|reflexivity].
    destruct (@join_firstn_prefix dash parts j (S n))
      as [rest Er]; [lia|].
    rewrite Hf, join_split in Er.
    rewrite Er, looks_like_cell_app in Hl by exact Hlj. discriminate.
  - apply last_dash_exists.
Qed.

(** ** More on range resolution *)

Section RangeFacts.
Variable U : Runtime.
Variable df : DataFrame.

(** A range whose rows are in the sheet and whose end column is in the
    sheet: no warning, and the slices of the rows without padding. *)
Lemma range_resolution_within (sl sd el ed : str) :
  is_cell_token U sl sd = true ->
  is_cell_token U el ed = true ->
  (1 <= row_of sd <= Z.of_nat (nrows df))%Z ->
  (row_of ed <= Z.of_nat (nrows df))%Z ->
  (column_of el - 1 < Z.of_nat (ncols df))%Z ->
  get_range_data_from_pandas U df ((sl ++ sd) ++ colon :: (el ++ ed))
  = ([], inr (PList
                (flat_map
                   (fun row_idx =>
                      map (fun col_idx =>
                             Some (cell df (Z.to_nat row_idx) (Z.to_nat col_idx)))
                          (py_range (column_of sl - 1) (column_of el)))
                   (py_range (row_of sd - 1) (row_of ed))))).
Proof.
  intros Hs He Hsr Her Hec.
  assert (Hsc : (1 <= column_of sl)%Z).
  { apply is_cell_token_parts in Hs as [[Hl _] [Hal _]].
    apply column_of_positive; [|exact Hal].
    intro E. rewrite E in Hl. simpl in Hl. lia. }
  pose proof (range_resolution U df _ _ _ _ Hs He) as E. cbv zeta in E.
  rewrite E.
  assert (G1 : ((row_of sd >? Z.of_nat (nrows df))
                || (row_of ed >? Z.of_nat (nrows df)))%Z = false).
  { apply orb_false_iff. rewrite !Z.gtb_ltb. split; apply Z.ltb_ge; lia. }
  assert (G2 : (column_of el - 1 >=? Z.of_nat (ncols df))%Z = false).
  { rewrite Z.geb_leb. apply Z.leb_gt. lia. }
  rewrite G1, G2, bind_ret_l, collect_range_slices by lia.
  rewrite bind_ret_l. unfold ret. do 3 f_equal.
  rewrite Z.min_l by lia. apply flat_map_ext. intro row_idx.
  unfold row_slice. rewrite G2, app_nil_r, Z.min_l by lia.
  do 2 f_equal. lia.
Qed.
End RangeFacts.

(** Range resolution inside the sheet: for a range of well-formed
    endpoints with 1 <= start_row <= end_row <= row_count and
    start_col <= end_col <= col_count, the result lists the cells of the
    rectangle row after row, each row from the start column to the end
    column, (end_row-start_row+1) * (end_col-start_col+1) cells and no
    missing marker, without any warning. *)
Theorem range_within_sheet_row_major
        (U : Runtime) (df : DataFrame) (sl sd el ed : str) :
  is_cell_token U sl sd = true ->
  is_cell_token U el ed = true ->
  let start_row := row_of sd in
  let end_row := row_of ed in
  let start_col := column_of sl in
  let end_col := column_of el in
  (1 <= start_row <= end_row)%Z -> (end_row <= Z.of_nat (nrows df))%Z ->
  (start_col <= end_col)%Z -> (end_col <= Z.of_nat (ncols df))%Z ->
  let values :=
    flat_map (fun row_idx =>
                map (fun col_idx =>
                       Some (cell df (Z.to_nat row_idx) (Z.to_nat col_idx)))
                    (py_range (start_col - 1) end_col))
             (py_range (start_row - 1) end_row) in
  get_range_data_from_pandas U df ((sl ++ sd) ++ colon :: (el ++ ed))
  = ([], inr (PList values))
  /\ Z.of_nat (length values)
     = ((end_row - start_row + 1) * (end_col - start_col + 1))%Z
  /\ ~ In None values.
Proof.
  intros Hs He start_row end_row start_col end_col Hrows Hend Hcols Hcend values.
  split; [|split].
  - apply range_resolution_within; try assumption;
      fold start_row end_row start_col end_col; lia.
  - unfold values.
    rewrite (@flat_map_length_const _ _ _ _ (Z.to_nat (end_col - start_col + 1))).
    + rewrite py_range_length. nia.
    + intros row_idx _. rewrite length_map, py_range_length. lia.
  - unfold values. rewrite in_flat_map. intros [row_idx [_ H]].
    apply in_map_iff in H as [col_idx [H _]]. discriminate.
Qed.

(** The range [A1:B2] of a sheet of two rows and two columns. *)
Lemma range_within_sheet_row_major_witness :
  let df := frame_of_rows 2 [[Number 1; Number 2]; [Number 3; Number 4]] in
  get_range_data_from_pandas ascii_only df (utf8 "A1:B2")
  = ([], inr (PList [Some (Number 1); Some (Number 2);
                     Some (Number 3); Some (Number 4)])).
Proof.
  intro df.
  refine (proj1 (@range_within_sheet_row_major ascii_only df
                   (utf8 "A") (utf8 "1") (utf8 "B") (utf8 "2") _ _ _ _ _ _)).
  - reflexivity.
  - reflexivity.
  - vm_compute. intuition discriminate.
  - vm_compute. discriminate.
  - vm_compute. discriminate.
  - vm_compute. discriminate.
Defined.

(** Inverted ranges: for a range of well-formed endpoints whose rows are
    in the sheet (from row 1) and whose end column is in the sheet, an
    end row above the start row, or an end column left of the start
    column, gives the empty list without any warning or exception: the
    endpoints are not put in order. *)
Theorem inverted_range_is_empty
        (U : Runtime) (df : DataFrame) (sl sd el ed : str) :
  is_cell_token U sl sd = true ->
  is_cell_token U el ed = true ->
  (1 <= row_of sd <= Z.of_nat (nrows df))%Z ->
  (row_of ed <= Z.of_nat (nrows df))%Z ->
  (column_of el <= Z.of_nat (ncols df))%Z ->
  (row_of ed < row_of sd \/ column_of el < column_of sl)%Z ->
  get_range_data_from_pandas U df ((sl ++ sd) ++ colon :: (el ++ ed))
  = ([], inr (PList [])).
Proof.
  intros Hs He Hsr Her Hec Hinv.
  rewrite range_resolution_within by (try assumption; lia).
  do 3 f_equal. destruct Hinv as [Hr|Hc].
  - unfold py_range at 2. replace (Z.to_nat _) with 0 by lia. reflexivity.
  - apply flat_map_nil. intro row_idx.
    unfold py_range.
    replace (Z.to_nat (column_of el - (column_of sl - 1))) with 0 by lia.
    reflexivity.
Qed.

(** The range [B2:A1] of a sheet of two rows and two columns. *)
Lemma inverted_range_is_empty_witness :
  let df := frame_of_rows 2 [[Number 1; Number 2]; [Number 3; Number 4]] in
  get_range_data_from_pandas ascii_only df (utf8 "B2:A1") = ([], inr (PList [])).
Proof.
  intro df.
  refine (@inverted_range_is_empty ascii_only df
            (utf8 "B") (utf8 "2") (utf8 "A") (utf8 "1") _ _ _ _ _ _).
  - reflexivity.
  - reflexivity.
  - vm_compute. intuition discriminate.
  - vm_compute. discriminate.
  - vm_compute. discriminate.
  - left. vm_compute. reflexivity.
Defined.

(** ** Edge cases of the resolver *)

(** Row 0 is not refused: [row - 1] is the position -1, which pandas
    counts from the end.  For a well-formed token whose digits denote 0,
    on a sheet with at least one row and with the column in the sheet,
    the result is the cell of that column in the last row, without a
    warning. *)
Theorem row_zero_reads_last_row
        (U : Runtime) (df : DataFrame) (letters digits : str) :
  is_cell_token U letters digits = true ->
  row_of digits = 0%Z ->
  1 <= nrows df ->
  (column_of letters <= Z.of_nat (ncols df))%Z ->
  get_range_data_from_pandas U df (letters ++ digits)
  = ([], inr (PCell (cell df (nrows df - 1)
                          (Z.to_nat (column_of letters - 1))))).
Proof.
  intros Htok Hrow Hn Hcol.
  assert (Hc1 : (1 <= column_of letters)%Z).
  { apply is_cell_token_parts in Htok as [[Hl _] [Hal _]].
    apply column_of_positive; [|exact Hal].
    intro E. rewrite E in Hl. simpl in Hl. lia. }
  rewrite (single_cell_resolution U df _ _ Htok), Hrow.
  rewrite Z.gtb_ltb, Z.geb_leb.
  destruct (Z.ltb_spec (Z.of_nat (nrows df)) 0); [lia|].
  destruct (Z.leb_spec (Z.of_nat (ncols df)) (column_of letters - 1)); [lia|].
  unfold iloc, position.
  destruct (Z.leb_spec 0 (0 - 1)); [lia|]. cbn [andb].
  destruct (Z.leb_spec (- Z.of_nat (nrows df)) (0 - 1)); [|lia].
  destruct (Z.ltb_spec (0 - 1) 0); [|lia]. cbn [andb].
  destruct (Z.leb_spec 0 (column_of letters - 1)); [|lia].
  destruct (Z.ltb_spec (column_of letters - 1) (Z.of_nat (ncols df))); [|lia].
  cbn [andb]. rewrite lift_inr, bind_ret_l.
  replace (Z.to_nat (0 - 1 + Z.of_nat (nrows df))) with (nrows df - 1) by lia.
  reflexivity.
Qed.

(** The token [B0] on a sheet of two rows reads the second row. *)
Lemma row_zero_reads_last_row_witness :
  let df := frame_of_rows 2 [[Number 1; Number 2]; [Number 3; Number 4]] in
  get_range_data_from_pandas ascii_only df (utf8 "B0")
  = ([], inr (PCell (Number 4))).
Proof.
  intro df.
  refine (@row_zero_reads_last_row ascii_only df (utf8 "B") (utf8 "0") _ _ _ _).
  - reflexivity.
  - reflexivity.
  - vm_compute. lia.
  - vm_compute. discriminate.
Defined.

Lemma split_length_count (sep : char) (s : str) :
  length (split sep s) = S (count_occ N.eq_dec s sep).
Proof.
  induction s as [|c r IH]; [reflexivity|].
  simpl split. simpl count_occ. destruct (char_eqb c sep) eqn:E.
  - apply char_eqb_eq in E. destruct (N.eq_dec c sep); [|contradiction].
    simpl. rewrite IH. reflexivity.
  - destruct (N.eq_dec c sep) as [->|_];
      [rewrite char_eqb_refl in E; discriminate|].
    pose proof (split_not_nil sep r) as Hn.
    destruct (split sep r); [contradiction | exact IH].
Qed.

(** An expression with two or more colons raises: the unpacking of line
    38 wants exactly two parts.  Nothing is printed. *)
Theorem several_colons_raise (U : Runtime) (df : DataFrame) (cell_range : str) :
  2 <= count_occ N.eq_dec cell_range colon ->
  get_range_data_from_pandas U df cell_range
  = raise (UnpackError (S (count_occ N.eq_dec cell_range colon))).
Proof.
  intro H. unfold get_range_data_from_pandas.
  assert (Hin : contains colon cell_range = true).
  { apply contains_In. apply (count_occ_In N.eq_dec). lia. }
  rewrite Hin. cbn [negb].
  pose proof (split_length_count colon cell_range) as L.
  destruct (split colon cell_range) as [|a [|b [|c l]]]; simpl in L; try lia.
  rewrite <- L. reflexivity.
Qed.

(** The expression [A1:B2:C3]. *)
Lemma several_colons_raise_witness :
  let df := frame_of_rows 2 [[Number 1; Number 2]; [Number 3; Number 4]] in
  get_range_data_from_pandas ascii_only df (utf8 "A1:B2:C3")
  = raise (UnpackError 3).
Proof.
  intro df.
  refine (@several_colons_raise ascii_only df (utf8 "A1:B2:C3") _).
  vm_compute. lia.
Defined.

(** A reference made of digits only is refused.  The scan starts at
    index 1, so a single digit has no digit suffix to find and the
    coordinate error is raised; with more digits the first one is taken
    for the column name, which openpyxl refuses. *)
Theorem numeric_token_rejected
        (U : Runtime) (df : DataFrame) (d : char) (digits : str) :
  ascii_digit d = true ->
  forallb ascii_digit digits = true ->
  int_accepts U digits = true ->
  get_range_data_from_pandas U df (d :: digits)
  = raise (match digits with
           | [] => InvalidCellFormat [d]
           | _ :: _ => InvalidColumnName [d]
           end).
Proof.
  intros Hd Hds Hacc. unfold get_range_data_from_pandas.
  assert (Hnc : contains colon (d :: digits) = false).
  { apply contains_not_In. intros [E|Hin].
    - apply (ascii_digit_not_colon Hd). exact E.
    - rewrite forallb_forall in Hds. apply (ascii_digit_not_colon (Hds _ Hin)).
      reflexivity. }
  rewrite Hnc. cbn [negb]. unfold scan_cell.
  destruct digits as [|c rest]; [reflexivity|].
  rewrite (@first_digit_suffix_seq U (d :: c :: rest) _ 1 1).
  - cbn [skipn firstn]. rewrite int_ascii by (assumption || discriminate).
    rewrite lift_inr, !bind_ret_l.
    unfold column_index_from_string. cbn [forallb length].
    rewrite (ascii_digit_is_ascii d Hd). cbn [andb Nat.leb column_from].
    unfold letter_value.
    assert (Hu : ascii_upper d = false).
    { unfold ascii_upper, ascii_digit in *. change char with N in *.
      apply andb_true_iff in Hd as [_ Hd]. apply N.leb_le in Hd.
      apply andb_false_iff. left. apply N.leb_gt. lia. }
    assert (Hl : ascii_lower d = false).
    { unfold ascii_lower, ascii_digit in *. change char with N in *.
      apply andb_true_iff in Hd as [_ Hd]. apply N.leb_le in Hd.
      apply andb_false_iff. left. apply N.leb_gt. lia. }
    rewrite Hu, Hl. reflexivity.
  - cbn [length]. lia.
  - intros j Hj. lia.
  - cbn [skipn]. apply isdigit_ascii_digits; [discriminate | exact Hds].
Qed.

(** The reference [15]. *)
Lemma numeric_token_rejected_witness :
  let df := frame_of_rows 2 [[Number 1; Number 2]; [Number 3; Number 4]] in
  get_range_data_from_pandas ascii_only df (utf8 "15")
  = raise (InvalidColumnName (utf8 "1")).
Proof.
  intro df.
  refine (@numeric_token_rejected ascii_only df 49%N (utf8 "5") _ _ _);
    reflexivity.
Defined.

(** What the resolver prints, by the shape of what it returns: it prints
    at most one line, always a warning; the missing marker is never
    returned silently (it comes with exactly one warning), and a cell is
    never returned with a warning. *)
Theorem resolver_warns_exactly_when_missing
        (U : Runtime) (df : DataFrame) (cell_range : str) :
  let run := get_range_data_from_pandas U df cell_range in
  length (events run) <= 1 /\
  forallb is_warning (events run) = true /\
  (outcome run = inr PNone -> exists warning, events run = [warning]) /\
  (forall x, outcome run = inr (PCell x) -> events run = []).
Proof.
  intro run.
  enough (G0 : length (events run) <= 1 /\
               forallb is_warning (events run) = true /\
               (outcome run = inr PNone ->
                exists warning, events run = [warning]) /\
               (forall x, outcome run = inr (PCell x) -> events run = []) /\
               (forall name, outcome run <> inr (PStr name)))
    by (destruct G0 as [G1 [G2 [G3 [G4 _]]]]; repeat apply conj; assumption).
  split; [|split; [apply resolver_warnings_only|]].
  - unfold run, get_range_data_from_pandas.
    destruct (negb (contains colon cell_range)).
    + rewrite events_bind, scan_cell_silent. cbn [app].
      destruct (outcome (scan_cell U _ cell_range)) as [e|[col_str row]];
        [simpl; lia|].
      cbv beta iota.
      destruct (column_index_from_string U col_str) as [e|col]; [simpl; lia|].
      rewrite lift_inr, bind_ret_l.
      destruct (row >? _)%Z; [simpl; lia|].
      destruct (col - 1 >=? _)%Z; [simpl; lia|].
      destruct (iloc df (row - 1) (col - 1)); simpl; lia.
    + destruct (split colon cell_range) as [|start_cell [|end_cell [|x l]]];
        try (simpl; lia).
      rewrite events_bind, scan_cell_silent. cbn [app].
      destruct (outcome (scan_cell U _ start_cell))
        as [e|[start_col_str start_row]]; [simpl; lia|].
      cbv beta iota. rewrite events_bind, scan_cell_silent. cbn [app].
      destruct (outcome (scan_cell U _ end_cell)) as [e|[end_col_str end_row]];
        [simpl; lia|].
      cbv beta iota.
      destruct (column_index_from_string U start_col_str) as [e|start_col];
        [simpl; lia|].
      rewrite lift_inr, bind_ret_l.
      destruct (column_index_from_string U end_col_str) as [e|end_col];
        [simpl; lia|].
      rewrite lift_inr, bind_ret_l.
      destruct (_ || _)%bool; [simpl; lia|].
      rewrite events_bind, length_app.
      assert (G : forall m : Run unit,
                 length (match outcome m with
                         | inl _ => []
                         | inr _ =>
                             events
                               (values <- collect_range
                                            df start_row end_row
                                            (start_col - 1) (end_col - 1) ;;
                                ret (PList values))
                         end) = 0).
      { intro m. destruct (outcome m); [reflexivity|].
        rewrite events_bind, collect_range_silent. simpl.
        destruct (outcome _); reflexivity. }
      rewrite G. destruct (end_col - 1 >=? _)%Z; simpl; lia.
  - unfold run, get_range_data_from_pandas.
    destruct (negb (contains colon cell_range)).
    + rewrite (run_eta (scan_cell U _ cell_range)), scan_cell_silent.
      destruct (outcome (scan_cell U _ cell_range)) as [e|[col_str row]].
      * repeat split; intros; discriminate.
      * change (bind ([], inr (col_str, row)) ?k) with (bind (ret (col_str, row)) k).
        rewrite bind_ret_l.
        destruct (column_index_from_string U col_str) as [e|col];
          [repeat split; intros; discriminate|].
        rewrite lift_inr, bind_ret_l.
        destruct (row >? _)%Z;
          [repeat split; intros; try discriminate; eexists; reflexivity|].
        destruct (col - 1 >=? _)%Z;
          [repeat split; intros; try discriminate; eexists; reflexivity|].
        destruct (iloc df (row - 1) (col - 1));
          repeat split; intros; try discriminate; reflexivity.
    + assert (G : forall m : Run PyVal,
                 (forall v, outcome m = inr v -> exists xs, v = PList xs) ->
                 (outcome m = inr PNone -> exists warning, events m = [warning]) /\
                 (forall x, outcome m = inr (PCell x) -> events m = []) /\
                 (forall name, outcome m <> inr (PStr name))).
      { intros m Hm. repeat split.
        - intro H. destruct (Hm _ H) as [xs Hx]. discriminate.
        - intros x H. destruct (Hm _ H) as [xs Hx]. discriminate.
        - intros name H. destruct (Hm _ H) as [xs Hx]. discriminate. }
      apply G. intros v.
      destruct (split colon cell_range) as [|start_cell [|end_cell [|x l]]];
        try discriminate.
      rewrite outcome_bind.
      destruct (outcome (scan_cell U _ start_cell))
        as [e|[start_col_str start_row]]; [discriminate|].
      cbv beta iota. rewrite outcome_bind.
      destruct (outcome (scan_cell U _ end_cell)) as [e|[end_col_str end_row]];
        [discriminate|].
      cbv beta iota.
      destruct (column_index_from_string U start_col_str) as [e|start_col];
        [discriminate|].
      rewrite lift_inr, bind_ret_l.
      destruct (column_index_from_string U end_col_str) as [e|end_col];
        [discriminate|].
      rewrite lift_inr, bind_ret_l.
      destruct (_ || _)%bool.
      * intro H. injection H as <-. eexists. reflexivity.
      * rewrite outcome_bind.
        destruct (outcome (if (end_col - 1 >=? _)%Z then _ else _));
          [discriminate|].
        rewrite outcome_bind. destruct (outcome (collect_range _ _ _ _ _));
          [discriminate|].
        intro H. injection H as <-. eexists. reflexivity.
Qed.

(** ** More on records and tables *)

(** The keys a list of field names adds to a record, in order. *)
Lemma filled_dict_keys (U : Runtime) (df : DataFrame)
      (specs : list (str * str)) (d : dict) :
  dict_keys (filled U df specs d)
  = fold_left (fun keys k => if str_in k keys then keys else keys ++ [k])
              (map snd specs) (dict_keys d).
Proof.
  revert d. induction specs as [|[cr h] specs IH]; intro d; [reflexivity|].
  rewrite filled_cons, IH, dict_keys_set. reflexivity.
Qed.

Lemma dict_get_In (d : dict) (k : str) :
  In k (dict_keys d) -> dict_get d k <> None.
Proof.
  induction d as [|[k' v'] d IH]; simpl; [intros []|].
  intros [E|H].
  - subst. rewrite str_eqb_refl. discriminate.
  - destruct (str_eqb k' k); [discriminate | apply IH; exact H].
Qed.

(** The records of a run all have the same keys in the same order,
    whatever the file, the worksheet and its cells: [sheet],
    [source_file], then the field names in the order of their first
    occurrence in the spec list.  So every column of the output is bound
    in every record, and no cell of the table is the filler for a missing
    column. *)
Theorem records_have_the_same_keys
        (U : Runtime) (P : OsPath) (disk : Disk)
        (parameters input_files : list str) :
  let specs := parse_position_args U parameters in
  let keys :=
    fold_left (fun keys k => if str_in k keys then keys else keys ++ [k])
              (map snd specs) [key_sheet; key_source_file] in
  let records := merged_records U P disk specs input_files in
  (forall path sheet_name df,
      dict_keys (sheet_record U P path specs sheet_name df) = keys) /\
  (forall record, In record records -> dict_keys record = keys) /\
  (forall record col,
      In record records ->
      In col (header (output_table records specs)) ->
      dict_get record col <> None).
Proof.
  intros specs keys records.
  assert (K : forall path sheet_name df,
             dict_keys (sheet_record U P path specs sheet_name df) = keys).
  { intros. unfold sheet_record. rewrite filled_dict_keys. reflexivity. }
  split; [exact K|]. split.
  - intros record Hr.
    destruct (merged_records_shape U P disk specs input_files record Hr)
      as [path [n [df ->]]].
    apply K.
  - intros record col Hr Hcol.
    destruct (merged_records_shape U P disk specs input_files record Hr)
      as [path [n [df ->]]].
    apply dict_get_In, sheet_record_keys.
    rewrite full_header with (U := U) (P := P) in Hcol.
    + simpl in Hcol. intuition.
    + intro E. fold records in Hr. rewrite E in Hr. contradiction.
    + intros r Hin. apply (merged_records_shape U P disk specs input_files r Hin).
Qed.

(** The extraction of one file (lines 108-157) by what the workbook
    gives and what the writer does, whatever the specs are: when the
    workbook does not open it raises the exception of line 121 and prints
    nothing; when it opens but none of its sheets can be read it raises
    NoDataExtracted and writes nothing; otherwise its table has one row
    for each sheet that could be read, and either the writer accepts the
    output path and the table, which is then the one table written, at
    the output path, and the number of rows is returned, or the writer
    refuses, and its exception is raised and nothing is written. *)
Theorem single_file_extraction_outcome
        (U : Runtime) (P : OsPath) (disk : Disk)
        (to_excel : str -> Table -> option Exn)
        (input_excel_path out_excel_path : str) (position_args : list str) :
  let run := extract_excel_info_single_file
               U P disk to_excel input_excel_path out_excel_path
               position_args in
  match disk input_excel_path with
  | inl cause => run = ([], inl (OpenFailed cause))
  | inr excel_file =>
      let read := length (filter (fun sheet => match snd sheet with
                                               | inr _ => true
                                               | inl _ => false
                                               end) excel_file) in
      let table := output_table
                     (records_of U P input_excel_path
                                 (parse_position_args U position_args)
                                 excel_file)
                     (parse_position_args U position_args) in
      length (body table) = read /\
      (read = 0 ->
       outcome run = inl NoDataExtracted /\ written (events run) = []) /\
      (0 < read -> to_excel out_excel_path table = None ->
       outcome run = inr (Z.of_nat read) /\
       written (events run) = [(out_excel_path, table)]) /\
      (0 < read ->
       forall e, to_excel out_excel_path table = Some e ->
                 outcome run = inl e /\ written (events run) = [])
  end.
Proof.
  intro run.
  pose proof (extract_excel_info_single_file_eq
                U P disk to_excel input_excel_path out_excel_path
                position_args) as E.
  pose proof (written_single_file
                U P disk to_excel input_excel_path out_excel_path
                position_args) as W.
  cbv zeta in E, W. fold run in E, W. unfold file_records in W.
  destruct (disk input_excel_path) as [cause|excel_file]; [exact E|].
  intros read table.
  pose proof (records_of_length U P input_excel_path
                (parse_position_args U position_args) excel_file) as L.
  fold read in L. fold table in E, W.
  assert (B : length (body table) = read).
  { unfold table. rewrite output_table_body, length_map. exact L. }
  split; [exact B|]. rewrite W, E. unfold outcome. cbn [snd].
  destruct (records_of U P input_excel_path
                       (parse_position_args U position_args) excel_file)
    as [|r rest].
  - simpl in L. split; [|split]; [|lia|lia]. intros _. split; reflexivity.
  - split; [simpl in L; lia|]. split.
    + intros _ Hacc. rewrite Hacc, L. split; reflexivity.
    + intros _ e He. rewrite He. split; reflexivity.
Qed.

Lemma map_flat_map {A B C} (g : B -> C) (f : A -> list B) (l : list A) :
  map g (flat_map f l) = flat_map (fun x => map g (f x)) l.
Proof.
  induction l as [|x l IH]; [reflexivity|].
  simpl. rewrite map_app, IH. reflexivity.
Qed.

Lemma flat_map_ext_In {A B} (f g : A -> list B) (l : list A) :
  (forall x, In x l -> f x = g x) -> flat_map f l = flat_map g l.
Proof.
  intro H. induction l as [|x l IH]; [reflexivity|].
  simpl. rewrite (H x) by (left; reflexivity).
  rewrite IH; [reflexivity|]. intros y Hy. apply H. right. exact Hy.
Qed.

(** The merged table is the per-file tables one under the other: its
    header is the header of every per-file table that has a row, and its
    body is the bodies of the per-file tables in the order of the input
    files. *)
Theorem merged_table_stacks_file_tables
        (U : Runtime) (P : OsPath) (disk : Disk)
        (parameters input_files : list str) :
  let specs := parse_position_args U parameters in
  let merged := output_table (merged_records U P disk specs input_files) specs in
  let table := fun input_file =>
                 output_table (file_records U P disk specs input_file) specs in
  body merged = flat_map (fun input_file => body (table input_file)) input_files /\
  (forall input_file,
      In input_file input_files ->
      file_records U P disk specs input_file <> [] ->
      header (table input_file) = header merged).
Proof.
  intros specs merged table.
  assert (Hfile : forall f,
             file_records U P disk specs f <> [] ->
             header (table f) = [key_sheet; key_source_file] ++ map snd specs).
  { intros f Hne. apply (full_header U P); [exact Hne|].
    intros r Hr. apply (merged_records_shape U P disk specs [f] r).
    unfold merged_records. simpl. rewrite app_nil_r. exact Hr. }
  assert (Hmerged : forall f,
             In f input_files -> file_records U P disk specs f <> [] ->
             header merged = [key_sheet; key_source_file] ++ map snd specs).
  { intros f Hin Hne. apply (full_header U P).
    - intro E. apply Hne.
      destruct (file_records U P disk specs f) as [|r rest] eqn:R;
        [reflexivity|].
      assert (Hr : In r (merged_records U P disk specs input_files)).
      { unfold merged_records. apply in_flat_map. exists f.
        split; [exact Hin | rewrite R; left; reflexivity]. }
      rewrite E in Hr. contradiction.
    - intros r Hr. apply (merged_records_shape U P disk specs input_files r Hr). }
  split.
  - unfold merged. rewrite output_table_body. fold merged.
    unfold merged_records. rewrite map_flat_map.
    apply flat_map_ext_In.
    intros f Hin. unfold table. rewrite output_table_body.
    destruct (file_records U P disk specs f) as [|r rest] eqn:R; [reflexivity|].
    rewrite (Hmerged f Hin) by (rewrite R; discriminate).
    pose proof (Hfile f) as Hf. unfold table in Hf. rewrite R in Hf.
    rewrite Hf by discriminate. reflexivity.
  - intros f Hin Hne. rewrite (Hfile f Hne), (Hmerged f Hin Hne). reflexivity.
Qed.

(** ** The parameter text *)

Lemma split_parts_sub (sep : char) (s p : str) (c : char) :
  In p (split sep s) -> In c p -> In c s.
Proof.
  revert p. induction s as [|x r IH]; intros p Hp Hc.
  - destruct Hp as [<-|[]]. exact Hc.
  - simpl in Hp. destruct (char_eqb x sep).
    + destruct Hp as [<-|Hp]; [destruct Hc|]. right. apply (IH p Hp Hc).
    + pose proof (split_not_nil sep r) as Hn.
      destruct (split sep r) as [|q qs]; [contradiction|].
      destruct Hp as [<-|Hp].
      * destruct Hc as [->|Hc]; [left; reflexivity|].
        right. apply (IH q); [left; reflexivity | exact Hc].
      * right. apply (IH p); [right; exact Hp | exact Hc].
Qed.

Lemma filter_map_comm {A B} (f : A -> B) (keep : B -> bool) (l : list A) :
  map f (filter (fun x => keep (f x)) l) = filter keep (map f l).
Proof.
  induction l as [|x l IH]; [reflexivity|].
  simpl. destruct (keep (f x)); simpl; rewrite IH; reflexivity.
Qed.

Section StripFacts.
Variable W : char -> bool.

Let sp := Gui.isspace W.
Let all_blank (w : str) : Prop := forallb sp w = true.

Lemma isspace_newline : sp Gui.newline = true.
Proof. reflexivity. Qed.

Lemma lstrip_blank_prefix (w s : str) :
  all_blank w -> Gui.lstrip W (w ++ s) = Gui.lstrip W s.
Proof.
  unfold all_blank. induction w as [|c w IH]; intro H; [reflexivity|].
  simpl in H. apply andb_true_iff in H as [Hc Hw].
  simpl. fold sp. rewrite Hc. apply IH. exact Hw.
Qed.

Lemma lstrip_blank (w : str) : all_blank w -> Gui.lstrip W w = [].
Proof.
  intro H. rewrite <- (app_nil_r w). rewrite lstrip_blank_prefix by exact H.
  reflexivity.
Qed.

(** What [lstrip] removes is blank, and what it leaves starts with a
    character that is not. *)
Lemma lstrip_decomp (s : str) :
  exists w, s = w ++ Gui.lstrip W s /\ all_blank w.
Proof.
  induction s as [|c r [w [E Hw]]].
  - exists []. split; reflexivity.
  - simpl. fold sp. destruct (sp c) eqn:Hc.
    + exists (c :: w). split.
      * simpl. f_equal. exact E.
      * unfold all_blank. simpl. rewrite Hc. exact Hw.
    + exists []. split; reflexivity.
Qed.

Lemma lstrip_head (s : str) (c : char) (r : str) :
  Gui.lstrip W s = c :: r -> sp c = false.
Proof.
  induction s as [|x s IH]; [discriminate|].
  simpl. fold sp. destruct (sp x) eqn:Hx; [exact IH|].
  intro E. injection E as <- _. exact Hx.
Qed.

Lemma lstrip_fixed (c : char) (r : str) :
  sp c = false -> Gui.lstrip W (c :: r) = c :: r.
Proof. intro H. simpl. fold sp. rewrite H. reflexivity. Qed.

Lemma lstrip_nil_blank (s : str) : Gui.lstrip W s = [] -> all_blank s.
Proof.
  intro H. destruct (lstrip_decomp s) as [w [E Hw]].
  rewrite H, app_nil_r in E. subst. exact Hw.
Qed.

Lemma lstrip_app (s t : str) :
  Gui.lstrip W s <> [] -> Gui.lstrip W (s ++ t) = Gui.lstrip W s ++ t.
Proof.
  induction s as [|c s IH]; intro H; [contradiction|].
  simpl in H |- *. fold sp in H |- *.
  destruct (sp c); [apply IH; exact H | reflexivity].
Qed.

Lemma all_blank_rev (w : str) : all_blank w -> all_blank (rev w).
Proof.
  unfold all_blank. rewrite !forallb_forall. intros H x Hx.
  apply H. apply in_rev. exact Hx.
Qed.

Lemma rstrip_blank_suffix (s w : str) :
  all_blank w -> Gui.rstrip W (s ++ w) = Gui.rstrip W s.
Proof.
  intro H. unfold Gui.rstrip. rewrite rev_app_distr.
  rewrite lstrip_blank_prefix by (apply all_blank_rev; exact H). reflexivity.
Qed.

Lemma rstrip_decomp (s : str) :
  exists w, s = Gui.rstrip W s ++ w /\ all_blank w.
Proof.
  destruct (lstrip_decomp (rev s)) as [w [E Hw]].
  exists (rev w). split; [|apply all_blank_rev; exact Hw].
  unfold Gui.rstrip. rewrite <- rev_app_distr, <- E, rev_involutive.
  reflexivity.
Qed.

Lemma rstrip_nil_blank (s : str) : Gui.rstrip W s = [] -> all_blank s.
Proof.
  intro H. destruct (rstrip_decomp s) as [w [E Hw]].
  rewrite H in E. subst. exact Hw.
Qed.

Lemma strip_blank_prefix (w s : str) :
  all_blank w -> Gui.strip W (w ++ s) = Gui.strip W s.
Proof.
  intro H. unfold Gui.strip. rewrite lstrip_blank_prefix by exact H.
  reflexivity.
Qed.

Lemma strip_blank (w : str) : all_blank w -> Gui.strip W w = [].
Proof. intro H. unfold Gui.strip. rewrite lstrip_blank by exact H. reflexivity. Qed.

Lemma strip_blank_suffix (s w : str) :
  all_blank w -> Gui.strip W (s ++ w) = Gui.strip W s.
Proof.
  intro H. unfold Gui.strip.
  destruct (Gui.lstrip W s) as [|c r] eqn:E.
  - apply lstrip_nil_blank in E.
    rewrite lstrip_blank_prefix, lstrip_blank by assumption. reflexivity.
  - rewrite lstrip_app by (rewrite E; discriminate).
    rewrite E. apply rstrip_blank_suffix. exact H.
Qed.

(** The string falls into a blank part, its strip, and a blank part. *)
Lemma strip_decomp (s : str) :
  exists w1 w2, s = w1 ++ Gui.strip W s ++ w2 /\ all_blank w1 /\ all_blank w2.
Proof.
  destruct (lstrip_decomp s) as [w1 [E1 H1]].
  destruct (rstrip_decomp (Gui.lstrip W s)) as [w2 [E2 H2]].
  exists w1, w2. split; [|split; assumption].
  unfold Gui.strip. rewrite <- E2. exact E1.
Qed.

Lemma strip_nil_blank (s : str) : Gui.strip W s = [] -> all_blank s.
Proof.
  intro H. destruct (strip_decomp s) as [w1 [w2 [E [H1 H2]]]].
  rewrite H in E. simpl in E. subst. unfold all_blank.
  rewrite forallb_app. apply andb_true_iff. split; assumption.
Qed.

(** A stripped string has no blank at either end. *)
Lemma strip_ends (s : str) :
  Gui.strip W s <> [] ->
  sp (hd 0%N (Gui.strip W s)) = false /\ sp (last (Gui.strip W s) 0%N) = false.
Proof.
  intro Hne. unfold Gui.strip in *.
  destruct (rstrip_decomp (Gui.lstrip W s)) as [w [E Hw]].
  split.
  - destruct (Gui.rstrip W (Gui.lstrip W s)) as [|c r] eqn:R; [contradiction|].
    simpl. eapply lstrip_head. exact E.
  - unfold Gui.rstrip in *.
    destruct (Gui.lstrip W (rev (Gui.lstrip W s))) as [|c r] eqn:R;
      [contradiction|].
    simpl rev. rewrite last_last. eapply lstrip_head. exact R.
Qed.

Lemma rstrip_fixed (s : str) :
  s <> [] -> sp (last s 0%N) = false -> Gui.rstrip W s = s.
Proof.
  intros Hne Hl. unfold Gui.rstrip.
  destruct (rev s) as [|c r] eqn:R.
  - apply (f_equal (@rev _)) in R. rewrite rev_involutive in R. contradiction.
  - assert (E : s = rev r ++ [c]).
    { rewrite <- (rev_involutive s), R. reflexivity. }
    rewrite E, last_last in Hl. rewrite lstrip_fixed by exact Hl.
    rewrite <- R. apply rev_involutive.
Qed.

Lemma strip_trimmed (line : str) :
  Gui.is_trimmed_line W line = true -> Gui.strip W line = line.
Proof.
  unfold Gui.is_trimmed_line. fold sp. intro H.
  repeat (apply andb_true_iff in H as [H ?]).
  destruct line as [|c r]; [discriminate|].
  unfold Gui.strip. simpl hd in *.
  rewrite lstrip_fixed by (apply negb_true_iff; assumption).
  apply rstrip_fixed; [discriminate | apply negb_true_iff; assumption].
Qed.

(** The stripped lines of a text that are not empty. *)
Let lines_of (text : str) : list str :=
  filter (fun line => negb (Gui.is_empty line))
         (map (Gui.strip W) (split Gui.newline text)).

Lemma blank_pieces (w : str) (p : str) :
  all_blank w -> In p (split Gui.newline w) -> all_blank p.
Proof.
  unfold all_blank. rewrite !forallb_forall. intros H Hp c Hc.
  apply H. apply (split_parts_sub _ _ _ _ Hp Hc).
Qed.

Lemma lines_of_pieces_blank (pieces : list str) :
  (forall p, In p pieces -> all_blank p) ->
  filter (fun line => negb (Gui.is_empty line)) (map (Gui.strip W) pieces) = [].
Proof.
  induction pieces as [|p ps IH]; intro H; [reflexivity|].
  simpl. rewrite strip_blank by (apply H; left; reflexivity).
  simpl. apply IH. intros q Hq. apply H. right. exact Hq.
Qed.

(** Blanks in front of a text change none of its lines. *)
Lemma lines_of_blank_prefix (w s : str) :
  all_blank w -> lines_of (w ++ s) = lines_of s.
Proof.
  unfold lines_of.
  induction w as [|c w IH]; intro H; [reflexivity|].
  assert (Hc : sp c = true /\ all_blank w).
  { unfold all_blank in H. simpl in H. apply andb_true_iff in H. exact H. }
  destruct Hc as [Hc Hw]. specialize (IH Hw).
  simpl app. simpl split. destruct (char_eqb c Gui.newline).
  - simpl. exact IH.
  - pose proof (split_not_nil Gui.newline (w ++ s)) as Hn.
    destruct (split Gui.newline (w ++ s)) as [|p ps]; [contradiction|].
    simpl map in *.
    replace (Gui.strip W (c :: p)) with (Gui.strip W p); [exact IH|].
    symmetry. apply (@strip_blank_prefix [c] p).
    unfold all_blank. simpl. rewrite Hc. reflexivity.
Qed.

(** Blanks after a text: its pieces are the same, the last one longer,
    and blank pieces follow. *)
Lemma split_blank_suffix (s w : str) :
  all_blank w ->
  exists front last_piece w1 blanks,
    split Gui.newline s = front ++ [last_piece] /\
    split Gui.newline (s ++ w) = front ++ (last_piece ++ w1) :: blanks /\
    all_blank w1 /\ (forall b, In b blanks -> all_blank b).
Proof.
  intro H. induction s as [|c s [front [lp [w1 [blanks [E1 [E2 [H1 H2]]]]]]]].
  - pose proof (split_not_nil Gui.newline w) as Hn.
    destruct (split Gui.newline w) as [|h t] eqn:Ew; [contradiction|].
    exists [], [], h, t. repeat split.
    + simpl. exact Ew.
    + apply (@blank_pieces w h); [exact H | rewrite Ew; left; reflexivity].
    + intros b Hb.
      apply (@blank_pieces w b); [exact H | rewrite Ew; right; exact Hb].
  - simpl app. simpl split. destruct (char_eqb c Gui.newline).
    + exists ([] :: front), lp, w1, blanks. rewrite E1, E2.
      repeat split; assumption.
    + rewrite E1, E2. destruct front as [|f fr].
      * exists [], (c :: lp), w1, blanks. repeat split; assumption.
      * exists ((c :: f) :: fr), lp, w1, blanks. repeat split; assumption.
Qed.

Lemma lines_of_blank_suffix (s w : str) :
  all_blank w -> lines_of (s ++ w) = lines_of s.
Proof.
  intro H. unfold lines_of.
  destruct (split_blank_suffix s H)
    as [front [lp [w1 [blanks [E1 [E2 [H1 H2]]]]]]].
  rewrite E1, E2, !map_app, !filter_app. f_equal.
  simpl. rewrite strip_blank_suffix by exact H1.
  rewrite lines_of_pieces_blank by exact H2.
  reflexivity.
Qed.

(** [get_parameters] gives the lines of the text, stripped, without
    the empty ones. *)
Lemma get_parameters_lines (param_text : str) :
  Gui.get_parameters W param_text = lines_of param_text.
Proof.
  unfold Gui.get_parameters.
  set (text0 := param_text ++ [Gui.newline]).
  assert (E0 : lines_of text0 = lines_of param_text).
  { apply lines_of_blank_suffix. reflexivity. }
  destruct (strip_decomp text0) as [w1 [w2 [E [H1 H2]]]].
  assert (Ex : lines_of text0 = lines_of (Gui.strip W text0)).
  { rewrite E at 1. rewrite lines_of_blank_prefix by exact H1.
    apply lines_of_blank_suffix. exact H2. }
  rewrite <- E0, Ex.
  destruct (Gui.strip W text0) as [|c r] eqn:S; [reflexivity|].
  cbn [Gui.is_empty]. unfold lines_of.
  apply (filter_map_comm (Gui.strip W) (fun line => negb (Gui.is_empty line))).
Qed.
End StripFacts.

Lemma split_at_sep (sep : char) (a b : str) :
  split sep (a ++ sep :: b) = split sep a ++ split sep b.
Proof.
  induction a as [|c a IH].
  - simpl. rewrite char_eqb_refl. reflexivity.
  - simpl. destruct (char_eqb c sep).
    + rewrite IH. reflexivity.
    + rewrite IH. pose proof (split_not_nil sep a) as Hn.
      destruct (split sep a); [contradiction | reflexivity].
Qed.

Lemma insert_lines_flat_map (params : list str) (text : str) :
  Gui.insert_lines params text
  = text ++ flat_map (fun param => param ++ [Gui.newline]) params.
Proof.
  unfold Gui.insert_lines. revert text.
  induction params as [|p ps IH]; intro text; simpl.
  - rewrite app_nil_r. reflexivity.
  - rewrite IH, <- app_assoc. reflexivity.
Qed.

(** [get_parameters] (lines 309-314) returns the lines of the text, each
    stripped, without those that are empty once stripped, in order; the
    early strip of the whole text and the test for an empty text change
    nothing to that.  So every parameter it returns is not empty, has no
    blank at either end and no newline. *)
Theorem get_parameters_stripped_lines
        (uni_isspace : char -> bool) (param_text : str) :
  Gui.get_parameters uni_isspace param_text
  = filter (fun line => negb (Gui.is_empty line))
           (map (Gui.strip uni_isspace) (split Gui.newline param_text))
  /\ forall line,
      In line (Gui.get_parameters uni_isspace param_text) ->
      Gui.is_trimmed_line uni_isspace line = true.
Proof.
  pose proof (get_parameters_lines uni_isspace param_text) as E.
  cbv zeta in E. split; [exact E|].
  intros line Hin. rewrite E in Hin.
  apply filter_In in Hin as [Hin Hne].
  apply in_map_iff in Hin as [piece [<- Hpiece]].
  unfold Gui.is_trimmed_line.
  destruct (strip_ends uni_isspace piece) as [Hh Hl].
  { intro Z. rewrite Z in Hne. discriminate. }
  rewrite Hne, Hh, Hl. cbn [negb andb].
  apply negb_true_iff, contains_not_In. intro Hc.
  apply (split_parts_no_sep _ _ _ Hpiece).
  destruct (strip_decomp uni_isspace piece) as [w1 [w2 [D _]]].
  rewrite D. apply in_or_app. right. apply in_or_app. left. exact Hc.
Qed.

Lemma trimmed_line_alone (uni_isspace : char -> bool) (line : str) :
  Gui.is_trimmed_line uni_isspace line = true ->
  filter (fun l => negb (Gui.is_empty l))
         (map (Gui.strip uni_isspace) (split Gui.newline line))
  = [line].
Proof.
  intro H. pose proof (strip_trimmed uni_isspace line H) as S.
  unfold Gui.is_trimmed_line in H.
  repeat (apply andb_true_iff in H as [H ?]).
  rewrite split_no_sep by (apply contains_not_In, negb_true_iff; assumption).
  simpl. rewrite S. rewrite H. reflexivity.
Qed.

(** Reading back what was inserted.  When the text is empty or ends with
    a newline, inserting parameters that are each trimmed (lines 260-261:
    each followed by a newline) and reading the text with
    [get_parameters] gives the parameters the text had, followed by the
    inserted ones unchanged and in order.  In particular loading a list
    of trimmed parameters into the emptied text and reading it back gives
    the list. *)
Theorem inserted_parameters_read_back
        (uni_isspace : char -> bool) (params : list str) (text : str) :
  Forall (fun param => Gui.is_trimmed_line uni_isspace param = true) params ->
  text = [] \/ (exists before, text = before ++ [Gui.newline]) ->
  Gui.get_parameters uni_isspace (Gui.insert_lines params text)
  = Gui.get_parameters uni_isspace text ++ params.
Proof.
  intros Hp Htext.
  destruct (get_parameters_stripped_lines uni_isspace text) as [Et _].
  destruct (get_parameters_stripped_lines
              uni_isspace (Gui.insert_lines params text)) as [Ei _].
  rewrite Et, Ei, insert_lines_flat_map. clear Et Ei.
  set (lines := fun t => filter (fun l => negb (Gui.is_empty l))
                                (map (Gui.strip uni_isspace)
                                     (split Gui.newline t))).
  change (lines (text ++ flat_map (fun param => param ++ [Gui.newline]) params)
          = lines text ++ params).
  assert (Hsplit : forall a b, lines (a ++ Gui.newline :: b) = lines a ++ lines b).
  { intros a b. unfold lines. rewrite split_at_sep, map_app, filter_app.
    reflexivity. }
  assert (Hnew : lines (flat_map (fun param => param ++ [Gui.newline]) params)
                 = params).
  { induction Hp as [|p ps Hp1 _ IH]; [reflexivity|].
    simpl. rewrite <- app_assoc. simpl. rewrite Hsplit, IH.
    unfold lines. rewrite trimmed_line_alone by exact Hp1. reflexivity. }
  destruct Htext as [->|[before ->]].
  - simpl. exact Hnew.
  - rewrite <- app_assoc. simpl. rewrite Hsplit, Hnew.
    f_equal. rewrite (Hsplit before []). unfold lines at 3. simpl.
    rewrite app_nil_r. reflexivity.
Qed.

(** Two parameters loaded into the emptied text. *)
Lemma inserted_parameters_read_back_witness :
  Gui.get_parameters (fun _ => false)
                     (Gui.insert_lines [utf8 "F4-name"; utf8 "A1:B2-block"] [])
  = [utf8 "F4-name"; utf8 "A1:B2-block"].
Proof.
  refine (@inserted_parameters_read_back (fun _ => false)
            [utf8 "F4-name"; utf8 "A1:B2-block"] [] _ _).
  - repeat constructor.
  - left. reflexivity.
Defined.

(** ** The file list *)

Lemma add_file_step (P : OsPath) (file : str) (st : Gui.Files) :
  Gui.files_in_step P st ->
  let st' := if str_in file (Gui.input_files st) then st
             else {| Gui.input_files := Gui.input_files st ++ [file];
                     Gui.file_listbox :=
                       Gui.file_listbox st ++ [basename P file] |} in
  Gui.files_in_step P st'
  /\ (exists added, Gui.input_files st' = Gui.input_files st ++ added)
  /\ (forall f, In f (Gui.input_files st')
                <-> In f (Gui.input_files st) \/ f = file).
Proof.
  intros [Hnd Hbox] st'. unfold st'.
  destruct (str_in file (Gui.input_files st)) eqn:E.
  - apply str_in_In in E. split; [split; assumption|]. split.
    + exists []. rewrite app_nil_r. reflexivity.
    + intro f. split; [auto|]. intros [H| ->]; assumption.
  - split; [split|split]; cbn [Gui.input_files Gui.file_listbox].
    + apply NoDup_app; [exact Hnd | repeat constructor; intros [] |].
      intros x Hx [<-|[]]. apply str_in_In in Hx. congruence.
    + rewrite map_app, Hbox. reflexivity.
    + exists [file]. reflexivity.
    + intro f. rewrite in_app_iff. simpl. intuition.
Qed.

(** Adding files (lines 273-282) keeps the list in step: no input file
    is listed twice, also when the dialog returns a path twice or one
    that is listed already, and the list box shows the base names of the
    input files entry for entry.  The files listed before keep their
    places, and afterwards the listed files are those listed before and
    those returned by the dialog. *)
Theorem add_files_keeps_list_in_step
        (P : OsPath) (files : list str) (st : Gui.Files) :
  Gui.files_in_step P st ->
  Gui.files_in_step P (Gui.add_files P files st)
  /\ (exists added,
         Gui.input_files (Gui.add_files P files st)
         = Gui.input_files st ++ added)
  /\ (forall f, In f (Gui.input_files (Gui.add_files P files st))
                <-> In f (Gui.input_files st) \/ In f files).
Proof.
  unfold Gui.add_files. revert st.
  induction files as [|file files IH]; intros st Hst.
  - simpl. split; [exact Hst|]. split.
    + exists []. rewrite app_nil_r. reflexivity.
    + intro f. intuition.
  - cbn [fold_left].
    destruct (add_file_step file Hst) as [H1 [[a1 E1] M1]].
    cbv zeta in H1, E1, M1.
    destruct (IH _ H1) as [H2 [[a2 E2] M2]].
    split; [exact H2|]. split.
    + exists (a1 ++ a2). rewrite E2, E1, app_assoc. reflexivity.
    + intro f. rewrite M2, M1. simpl. intuition.
Qed.

(** The dialog returns [/a/x.xlsx] twice and [/b/x.xlsx], on an empty
    list. *)
Lemma add_files_keeps_list_in_step_witness :
  Gui.files_in_step
    Posix.os_path
    (Gui.add_files Posix.os_path
                   [utf8 "/a/x.xlsx"; utf8 "/b/x.xlsx"; utf8 "/a/x.xlsx"]
                   {| Gui.input_files := []; Gui.file_listbox := [] |}).
Proof.
  refine (proj1 (@add_files_keeps_list_in_step
                   Posix.os_path
                   [utf8 "/a/x.xlsx"; utf8 "/b/x.xlsx"; utf8 "/a/x.xlsx"]
                   {| Gui.input_files := []; Gui.file_listbox := [] |} _)).
  split; [constructor | reflexivity].
Defined.

Lemma remove_at_map {A B} (f : A -> B) (index : nat) (l : list A) :
  Gui.remove_at index (map f l) = map f (Gui.remove_at index l).
Proof.
  unfold Gui.remove_at. rewrite map_app, firstn_map, skipn_map. reflexivity.
Qed.

Lemma remove_at_length {A} (index : nat) (l : list A) :
  index < length l -> S (length (Gui.remove_at index l)) = length l.
Proof.
  intro H. unfold Gui.remove_at.
  rewrite length_app, length_firstn, length_skipn. lia.
Qed.

Lemma remove_at_NoDup {A} (index : nat) (l : list A) (d : A) :
  NoDup l -> index < length l ->
  NoDup (Gui.remove_at index l) /\ ~ In (nth index l d) (Gui.remove_at index l).
Proof.
  intros Hnd Hi. unfold Gui.remove_at.
  assert (E : l = firstn index l ++ nth index l d :: skipn (S index) l).
  { rewrite <- (firstn_skipn index l) at 1. f_equal.
    clear Hnd. revert index Hi. induction l as [|x l IH]; intros [|i] Hi;
      simpl in *; try lia; [reflexivity|].
    apply IH. lia. }
  rewrite E in Hnd. split.
  - apply (NoDup_remove_1 _ _ _ Hnd).
  - apply (NoDup_remove_2 _ _ _ Hnd).
Qed.

(** Removing the selected file (lines 284-290).  While the list is in
    step, a selection of the list box never makes [pop] raise; the file at
    the first selected index is dropped from the list and from the list
    box, which stay in step, the other files keep their order, and the
    dropped file is no longer listed.  With nothing selected nothing
    changes. *)
Theorem remove_selected_file_keeps_list_in_step
        (P : OsPath) (st : Gui.Files) (index : nat) (others : list nat) :
  Gui.files_in_step P st ->
  index < length (Gui.file_listbox st) ->
  Gui.remove_selected_file [] st = inr st /\
  exists st',
    Gui.remove_selected_file (index :: others) st = inr st' /\
    Gui.files_in_step P st' /\
    Gui.input_files st'
    = firstn index (Gui.input_files st) ++ skipn (S index) (Gui.input_files st) /\
    S (length (Gui.input_files st')) = length (Gui.input_files st) /\
    ~ In (nth index (Gui.input_files st) []) (Gui.input_files st').
Proof.
  intros [Hnd Hbox] Hi. split; [reflexivity|].
  assert (Hlen : index < length (Gui.input_files st)).
  { rewrite Hbox, length_map in Hi. exact Hi. }
  unfold Gui.remove_selected_file.
  destruct (Nat.ltb_spec index (length (Gui.input_files st))); [|lia].
  eexists. split; [reflexivity|]. cbn [Gui.input_files Gui.file_listbox].
  destruct (@remove_at_NoDup _ index _ [] Hnd Hlen) as [N1 N2].
  split; [split|split; [|split]].
  - exact N1.
  - rewrite Hbox. apply remove_at_map.
  - reflexivity.
  - apply remove_at_length. exact Hlen.
  - exact N2.
Qed.

(** Removing the first of two listed files. *)
Lemma remove_selected_file_keeps_list_in_step_witness :
  let st := {| Gui.input_files := [utf8 "/a/x.xlsx"; utf8 "/b/y.xlsx"];
               Gui.file_listbox := [utf8 "x.xlsx"; utf8 "y.xlsx"] |} in
  exists st',
    Gui.remove_selected_file [0] st = inr st' /\
    Gui.files_in_step Posix.os_path st'.
Proof.
  intro st.
  destruct (@remove_selected_file_keeps_list_in_step
              Posix.os_path st 0 [])
    as [_ [st' [E [H _]]]].
  - split; [|reflexivity].
    repeat constructor; simpl; intuition discriminate.
  - simpl. lia.
  - exists st'. split; assumption.
Defined.

(** ** The start button *)

(** The start button refuses an incomplete form before anything is done
    (lines 318-335), asking for the first thing that is missing, in the
    order of the checks: with no input file it asks for a file; with a
    file but no parameter in the text it asks for a parameter; with these
    but no output directory it asks for the directory; with these but no
    output name it asks for the name.  In each case it shows that one
    message box and returns: no directory is made, no workbook is opened,
    nothing is logged or written. *)
Theorem start_extraction_refuses_incomplete_form
        (U : Runtime) (P : OsPath) (disk : Disk)
        (to_excel : str -> Table -> option Exn)
        (uni_isspace : char -> bool) (makedirs : str -> option Exn)
        (app : Gui.App) :
  let input_files := Gui.input_files (Gui.files app) in
  let parameters := Gui.get_parameters uni_isspace (Gui.param_text app) in
  let output_dir := Gui.output_dir_var app in
  let output_name := Gui.output_name_var app in
  let pressed := Gui.start_extraction
                   U P disk to_excel uni_isspace makedirs app in
  (input_files = [] -> pressed = ([Gui.Show Gui.AskForFile], inr tt)) /\
  (input_files <> [] -> parameters = [] ->
   pressed = ([Gui.Show Gui.AskForParameter], inr tt)) /\
  (input_files <> [] -> parameters <> [] -> output_dir = [] ->
   pressed = ([Gui.Show Gui.AskForOutputDir], inr tt)) /\
  (input_files <> [] -> parameters <> [] -> output_dir <> [] ->
   output_name = [] ->
   pressed = ([Gui.Show Gui.AskForOutputName], inr tt)) /\
  (input_files = [] \/ parameters = [] \/ output_dir = [] \/ output_name = [] ->
   exists d,
     pressed = ([Gui.Show d], inr tt)
     /\ (d = Gui.AskForFile \/ d = Gui.AskForParameter
         \/ d = Gui.AskForOutputDir \/ d = Gui.AskForOutputName)).
Proof.
  cbv zeta. unfold Gui.start_extraction.
  destruct (Gui.input_files (Gui.files app)) as [|f fs].
  { repeat apply conj; try (intros; contradiction); try reflexivity.
    intros _. exists Gui.AskForFile. auto. }
  cbn [Gui.is_empty].
  destruct (Gui.get_parameters uni_isspace (Gui.param_text app)) as [|p ps].
  { repeat apply conj; try (intros; contradiction); try discriminate;
      try reflexivity.
    intros _. exists Gui.AskForParameter. auto. }
  destruct (Gui.output_dir_var app) as [|c r].
  { repeat apply conj; try (intros; contradiction); try discriminate;
      try reflexivity.
    intros _. exists Gui.AskForOutputDir. auto. }
  cbn [Gui.is_empty].
  destruct (Gui.output_name_var app) as [|c' r'].
  { repeat apply conj; try (intros; contradiction); try discriminate;
      try reflexivity.
    intros _. exists Gui.AskForOutputName. auto 6. }
  repeat apply conj; try discriminate.
  intros [H|[H|[H|H]]]; discriminate.
Qed.

(** A form whose parameter text holds blank lines only: the button asks
    for a parameter. *)
Lemma start_extraction_refuses_incomplete_form_witness :
  Gui.start_extraction
    ascii_only Posix.os_path sample_disk
    (writer_by_extension Posix.os_path) (fun _ => false) (fun _ => None)
    {| Gui.files := {| Gui.input_files := [utf8 "/data/book.xlsx"];
                       Gui.file_listbox := [utf8 "book.xlsx"] |};
       Gui.param_text := [32%N; 10%N; 10%N];
       Gui.output_dir_var := utf8 "/out";
       Gui.output_name_var := utf8 "result.xlsx";
       Gui.output_mode := utf8 "single" |}
  = ([Gui.Show Gui.AskForParameter], inr tt).
Proof.
  refine (proj1 (proj2
            (@start_extraction_refuses_incomplete_form
               ascii_only Posix.os_path sample_disk
               (writer_by_extension Posix.os_path) (fun _ => false)
               (fun _ => None)
               {| Gui.files := {| Gui.input_files := [utf8 "/data/book.xlsx"];
                                  Gui.file_listbox := [utf8 "book.xlsx"] |};
                  Gui.param_text := [32%N; 10%N; 10%N];
                  Gui.output_dir_var := utf8 "/out";
                  Gui.output_name_var := utf8 "result.xlsx";
                  Gui.output_mode := utf8 "single" |})) _ _).
  - discriminate.
  - reflexivity.
Defined.



(** ** The default parameters *)

(** The default parameters (lines 169-173) name the field [类型] twice,
    for N7 and for C15.  With them, whatever the worksheet holds, each of
    the twelve lines splits at its dash; the record binds [类型] once, to
    what C15 resolved to, so it has 13 keys for 14 columns, and both
    columns headed [类型] show that value: what N7 resolved to is not
    kept under any key. *)
Theorem default_parameters_bind_type_once
        (U : Runtime) (P : OsPath) (df : DataFrame) (path sheet_name : str) :
  let specs := parse_position_args U Gui.default_params in
  let record := sheet_record U P path specs sheet_name df in
  let type := utf8 "类型" in
  specs = [(utf8 "F4", utf8 "样品名称"); (utf8 "N7", type);
           (utf8 "F6", utf8 "进样体积"); (utf8 "A15", utf8 "保留时间");
           (utf8 "N8", utf8 "样品含量"); (utf8 "N6", utf8 "位置");
           (utf8 "E15", utf8 "峰宽[min]"); (utf8 "G15", utf8 "峰面积");
           (utf8 "H15", utf8 "峰高"); (utf8 "K15", utf8 "峰面积%");
           (utf8 "C15", type); (utf8 "G16", utf8 "总和")] /\
  dict_get record type = Some (field_value U df (utf8 "C15")) /\
  shown record type = field_value U df (utf8 "C15") /\
  length (dict_keys record) = 13 /\
  length (header (output_table [record] specs)) = 14 /\
  count_occ (list_eq_dec N.eq_dec) (header (output_table [record] specs)) type
  = 2.
Proof.
  intros specs record type.
  assert (Es : specs
               = [(utf8 "F4", utf8 "样品名称"); (utf8 "N7", type);
                  (utf8 "F6", utf8 "进样体积"); (utf8 "A15", utf8 "保留时间");
                  (utf8 "N8", utf8 "样品含量"); (utf8 "N6", utf8 "位置");
                  (utf8 "E15", utf8 "峰宽[min]"); (utf8 "G15", utf8 "峰面积");
                  (utf8 "H15", utf8 "峰高"); (utf8 "K15", utf8 "峰面积%");
                  (utf8 "C15", type); (utf8 "G16", utf8 "总和")]).
  { vm_compute. reflexivity. }
  assert (Eg : dict_get record type = Some (field_value U df (utf8 "C15"))).
  { unfold record, sheet_record. rewrite Es.
    apply (filled_get_last U df
             [(utf8 "F4", utf8 "样品名称"); (utf8 "N7", type);
              (utf8 "F6", utf8 "进样体积"); (utf8 "A15", utf8 "保留时间");
              (utf8 "N8", utf8 "样品含量"); (utf8 "N6", utf8 "位置");
              (utf8 "E15", utf8 "峰宽[min]"); (utf8 "G15", utf8 "峰面积");
              (utf8 "H15", utf8 "峰高"); (utf8 "K15", utf8 "峰面积%")]
             [(utf8 "G16", utf8 "总和")]).
    vm_compute. intuition discriminate. }
  assert (Eh : header (output_table [record] specs)
               = [key_sheet; key_source_file] ++ map snd specs).
  { apply (full_header U P); [discriminate|].
    intros r [<-|[]]. exists path, sheet_name, df. reflexivity. }
  split; [exact Es|]. split; [exact Eg|]. split; [|split; [|split]].
  - unfold shown. rewrite Eg. reflexivity.
  - unfold record, sheet_record. rewrite filled_dict_keys, Es.
    vm_compute. reflexivity.
  - rewrite Eh, Es. reflexivity.
  - rewrite Eh, Es. vm_compute. reflexivity.
Qed.

(** ** Output names in per-file mode *)

(** The output of a file is named after its base name only (lines
    414-416), while the file list tells files apart by their whole path
    (line 280).  So two input files with the same base name have the same
    output path; when both give records, what is written is the table of
    the first, if the writer accepts it, and then the table of the
    second, if the writer accepts it, at that one path; and when the
    writer accepts the second, it is the table of the second that the run
    leaves there. *)
Theorem same_base_name_same_output
        (U : Runtime) (P : OsPath) (disk : Disk)
        (to_excel : str -> Table -> option Exn)
        (first second : str) (parameters : list str)
        (output_dir output_name : str) :
  let specs := parse_position_args U parameters in
  let output_path :=
    path_join P output_dir (derived_name P output_name first) in
  let first_table := output_table (file_records U P disk specs first) specs in
  let second_table :=
    output_table (file_records U P disk specs second) specs in
  let run := extract_to_multiple_files
               U P disk to_excel [first; second] parameters
               output_dir output_name in
  basename P first = basename P second ->
  file_records U P disk specs first <> [] ->
  file_records U P disk specs second <> [] ->
  path_join P output_dir (derived_name P output_name second) = output_path /\
  written (events run)
  = match to_excel output_path first_table with
    | None => [(output_path, first_table)]
    | Some _ => []
    end
    ++ match to_excel output_path second_table with
       | None => [(output_path, second_table)]
       | Some _ => []
       end /\
  (to_excel output_path first_table = None ->
   to_excel output_path second_table = None ->
   written (events run)
   = [(output_path, first_table); (output_path, second_table)]) /\
  (to_excel output_path second_table = None ->
   output_after (written (events run)) output_path = Some second_table).
Proof.
  intros specs output_path first_table second_table run Hbase H1 H2.
  assert (En : derived_name P output_name second
               = derived_name P output_name first).
  { unfold derived_name. rewrite Hbase. reflexivity. }
  assert (W : written (events run)
              = match to_excel output_path first_table with
                | None => [(output_path, first_table)]
                | Some _ => []
                end
                ++ match to_excel output_path second_table with
                   | None => [(output_path, second_table)]
                   | Some _ => []
                   end).
  { pose proof (written_per_file_mode U P disk to_excel [first; second]
                                      parameters output_dir output_name) as W.
    cbv zeta in W. fold specs run in W. rewrite W. cbn [flat_map].
    rewrite En, app_nil_r. fold output_path.
    unfold first_table, second_table.
    destruct (file_records U P disk specs first); [contradiction|].
    destruct (file_records U P disk specs second); [contradiction|].
    reflexivity. }
  split; [rewrite En; reflexivity|]. split; [exact W|]. split.
  - intros A1 A2. rewrite W, A1, A2. reflexivity.
  - intro A2. rewrite W, A2, output_after_app. simpl.
    rewrite str_eqb_refl. reflexivity.
Qed.

(** A disk holding two workbooks of the same name in two directories. *)
Lemma same_base_name_same_output_witness :
  let disk := fun path : str =>
                if str_eqb path (utf8 "/a/x.xlsx")
                then inr [(utf8 "S1", inr (frame_of_rows 1 [[Number 1]]))]
                else if str_eqb path (utf8 "/b/x.xlsx")
                then inr [(utf8 "S1", inr (frame_of_rows 1 [[Number 2]]))]
                else inl (ReadError 2) in
  output_after
    (written (events (extract_to_multiple_files
                        ascii_only Posix.os_path disk
                        (writer_by_extension Posix.os_path)
                        [utf8 "/a/x.xlsx"; utf8 "/b/x.xlsx"]
                        [utf8 "A1-value"] (utf8 "/out")
                        (utf8 "result.xlsx"))))
    (utf8 "/out/result_x.xlsx")
  = Some {| header := [utf8 "sheet"; utf8 "source_file"; utf8 "value"];
            body := [[PStr (utf8 "S1"); PStr (utf8 "x.xlsx");
                      PCell (Number 2)]] |}.
Proof.
  intro disk.
  refine (eq_trans
            (proj2 (proj2 (proj2
               (@same_base_name_same_output
                  ascii_only Posix.os_path disk
                  (writer_by_extension Posix.os_path)
                  (utf8 "/a/x.xlsx") (utf8 "/b/x.xlsx") [utf8 "A1-value"]
                  (utf8 "/out") (utf8 "result.xlsx") _ _ _))) _) _).
  - vm_compute. reflexivity.
  - vm_compute. discriminate.
  - vm_compute. discriminate.
  - vm_compute. reflexivity.
  - vm_compute. reflexivity.
Defined.
